(** * benchmark_matmul.py: a shallow embedding of the benchmark script

    The script keeps two module globals [X] and [C], fills them once in
    [setup_matrices] and then hands two timing functions to the pyperf
    harness.  Everything numerical happens inside NumPy, everything
    statistical inside pyperf; the script itself is straight-line glue.

    The embedding threads an explicit [world] through a small state and
    exception monad.  The world holds the two globals, the state of NumPy's
    global random generator, the monotonic clock read by
    [pyperf.perf_counter], and a log of the library operations that
    completed.  What the environment decides (which library call fails, how
    long a call takes, which repetition counts the harness picks, what the
    eigen-solver computes) is supplied by oracles that are parameters of the
    development. *)

From Stdlib Require Import String DecimalString.
From Stdlib Require Import List ZArith Lia Bool Arith.
Import ListNotations.

Set Implicit Arguments.

(** ** Exceptions and outcomes *)

(** The Python exceptions that can reach the script. *)
Inductive exn : Type :=
| AttributeError   (* attribute access on [None] *)
| ValueError       (* operand shapes that do not match *)
| LinAlgError      (* np.linalg: bad input or no convergence *)
| MemoryError.     (* allocation failure inside the library *)

Inductive result (A : Type) : Type :=
| Ok (a : A)
| Err (e : exn).

Arguments Ok {A} a.
Arguments Err {A} e.

(** ** Operations visible from outside, in the order they complete *)

Inductive event : Type :=
| EvPrint (line : string)                         (* print(...) *)
| EvRandn (rows cols : nat)                       (* np.random.randn(rows, cols) *)
| EvMatmul (n k m : nat)                          (* (n x k) @ (k x m) *)
| EvEigh (n : nat)                                (* np.linalg.eigh of an n x n array *)
| EvPerfCounter (t : Z)                           (* pyperf.perf_counter() read t *)
| EvRunner                                        (* pyperf.Runner() *)
| EvReport (name : string) (samples : list (nat * Z)).  (* the harness reports *)

Definition is_perf_counter (e : event) : bool :=
  match e with EvPerfCounter _ => true | _ => false end.

Definition is_matmul (e : event) : bool :=
  match e with EvMatmul _ _ _ => true | _ => false end.

Definition is_eigh (e : event) : bool :=
  match e with EvEigh _ => true | _ => false end.

Definition is_randn (e : event) : bool :=
  match e with EvRandn _ _ => true | _ => false end.

(** What may happen while benchmark A (resp. B) is being timed. *)
Definition timed_matmul (e : event) : bool := is_perf_counter e || is_matmul e.
Definition timed_eigh (e : event) : bool := is_perf_counter e || is_eigh e.

(** ** Text printed by [main] *)

Fixpoint str_mul (s : string) (n : nat) : string :=
  match n with
  | O => EmptyString
  | S k => (s ++ str_mul s k)%string
  end.

Definition str_of_nat (n : nat) : string := NilEmpty.string_of_uint (Nat.to_uint n).

(** [str] of a two-element shape tuple, as an f-string renders it. *)
Definition str_of_shape (sh : nat * nat) : string :=
  ("(" ++ str_of_nat (fst sh) ++ ", " ++ str_of_nat (snd sh) ++ ")")%string.

(** ** The numerical library's data *)

(** Array entries.  The script never looks inside a float, so the entry
    type and its two arithmetic operations stay abstract. *)
Class Scalar (scalar : Type) : Type := {
  szero : scalar;
  sadd : scalar -> scalar -> scalar;
  smul : scalar -> scalar -> scalar
}.

Section Arrays.

Context {scalar : Type} {SC : Scalar scalar}.

(** A two-dimensional ndarray: its shape and its buffer in row-major
    (C) order. *)
Record matrix : Type := mkMatrix {
  nrows : nat;
  ncols : nat;
  data : list scalar
}.

Definition shape (a : matrix) : nat * nat := (nrows a, ncols a).

Definition entry (a : matrix) (i j : nat) : scalar :=
  nth (i * ncols a + j) (data a) szero.

Definition tabulate (r c : nat) (f : nat -> nat -> scalar) : list scalar :=
  flat_map (fun i => map (f i) (seq 0 c)) (seq 0 r).

Definition build (r c : nat) (f : nat -> nat -> scalar) : matrix :=
  {| nrows := r; ncols := c; data := tabulate r c f |}.

(** [a.T] *)
Definition transpose (a : matrix) : matrix :=
  build (ncols a) (nrows a) (fun i j => entry a j i).

Definition dot (n : nat) (f g : nat -> scalar) : scalar :=
  fold_left (fun acc k => sadd acc (smul (f k) (g k))) (seq 0 n) szero.

(** The value of [a @ b] when the inner dimensions agree. *)
Definition matmul (a b : matrix) : matrix :=
  build (nrows a) (ncols b)
        (fun i j => dot (ncols a) (fun k => entry a i k) (fun k => entry b k j)).

Definition symmetric (a : matrix) : Prop :=
  forall i j, i < nrows a -> j < ncols a -> entry a i j = entry a j i.

End Arrays.

Arguments matrix scalar : clear implicits.

(** ** Program state *)

Record world (scalar rng : Type) : Type := mkWorld {
  gX : option (matrix scalar);   (* module global X *)
  gC : option (matrix scalar);   (* module global C *)
  rng_state : rng;               (* np.random's global state *)
  clock : Z;                     (* monotonic clock, in ticks *)
  calls : nat;                   (* library calls made so far *)
  trace : list event             (* completed operations, oldest first *)
}.

(** ** The environment *)

(** What the script cannot control.
    - [next_normal]: NumPy's global generator, one standard-normal draw
      per step;
    - [syevd]: what LAPACK's symmetric solver computes when it converges,
      eigenvalues and eigenvectors;
    - [fault i]: the exception, if any, raised by the [i]-th call into the
      numerical library;
    - [cost i]: the clock ticks that call takes;
    - [plan]: the harness's calibration, for each benchmark name the
      successive choices of a repetition count, each made from the samples
      collected so far. *)
Class Env (scalar rng : Type) : Type := {
  next_normal : rng -> scalar * rng;
  syevd : matrix scalar -> list scalar * matrix scalar;
  fault : nat -> option exn;
  cost : nat -> Z;
  plan : string -> list (list (nat * Z) -> nat)
}.

Section Script.

Context {scalar rng : Type} {SC : Scalar scalar} {E : Env scalar rng}.

Fixpoint draws (n : nat) (g : rng) : list scalar * rng :=
  match n with
  | O => ([], g)
  | S k =>
      let (x, g1) := next_normal g in
      let (xs, g2) := draws k g1 in
      (x :: xs, g2)
  end.

(** The module right after import: [X = None], [C = None]. *)
Definition module_init (g : rng) (t : Z) : world scalar rng :=
  {| gX := None; gC := None; rng_state := g; clock := t; calls := 0; trace := [] |}.

Definition set_X (v : option (matrix scalar)) (w : world scalar rng) : world scalar rng :=
  {| gX := v; gC := gC w; rng_state := rng_state w;
     clock := clock w; calls := calls w; trace := trace w |}.

Definition set_C (v : option (matrix scalar)) (w : world scalar rng) : world scalar rng :=
  {| gX := gX w; gC := v; rng_state := rng_state w;
     clock := clock w; calls := calls w; trace := trace w |}.

Definition set_rng (g : rng) (w : world scalar rng) : world scalar rng :=
  {| gX := gX w; gC := gC w; rng_state := g;
     clock := clock w; calls := calls w; trace := trace w |}.

Definition log (e : event) (w : world scalar rng) : world scalar rng :=
  {| gX := gX w; gC := gC w; rng_state := rng_state w;
     clock := clock w; calls := calls w; trace := trace w ++ [e] |}.

(** One more library call was entered. *)
Definition enter (w : world scalar rng) : world scalar rng :=
  {| gX := gX w; gC := gC w; rng_state := rng_state w;
     clock := clock w; calls := S (calls w); trace := trace w |}.

Definition advance (d : Z) (w : world scalar rng) : world scalar rng :=
  {| gX := gX w; gC := gC w; rng_state := rng_state w;
     clock := (clock w + d)%Z; calls := calls w; trace := trace w |}.

(** ** The monad: state plus exceptions *)

Definition M (A : Type) : Type := world scalar rng -> result A * world scalar rng.

Definition ret {A} (a : A) : M A := fun w => (Ok a, w).

Definition raise {A} (e : exn) : M A := fun w => (Err e, w).

Definition bind {A B} (m : M A) (k : A -> M B) : M B :=
  fun w =>
    match m w with
    | (Ok a, w1) => k a w1
    | (Err e, w1) => (Err e, w1)
    end.

Notation "x <- m ;; k" := (bind m (fun x => k))
  (at level 61, m at next level, right associativity).
Notation "m ;; k" := (bind m (fun _ => k))
  (at level 61, right associativity).

(** [for _ in range(n): body] *)
Fixpoint for_range (n : nat) (body : M unit) : M unit :=
  match n with
  | O => ret tt
  | S k => body ;; for_range k body
  end.

(** A call into the numerical library: it may raise what the
    environment says; otherwise it takes its time, and is logged. *)
Definition lib_call {A} (ev : event) (run : world scalar rng -> A * world scalar rng) : M A :=
  fun w =>
    match fault (calls w) with
    | Some e => (Err e, enter w)
    | None =>
        let (a, w1) := run (enter w) in
        (Ok a, log ev (advance (cost (calls w)) w1))
    end.

(** ** Library entry points used by the script *)

Definition print (line : string) : M unit :=
  fun w => (Ok tt, log (EvPrint line) w).

Definition load_X : M (option (matrix scalar)) := fun w => (Ok (gX w), w).
Definition load_C : M (option (matrix scalar)) := fun w => (Ok (gC w), w).
Definition store_X (a : matrix scalar) : M unit := fun w => (Ok tt, set_X (Some a) w).
Definition store_C (a : matrix scalar) : M unit := fun w => (Ok tt, set_C (Some a) w).

(** [v.T]: a view, no work; [None] has no such attribute. *)
Definition getattr_T (v : option (matrix scalar)) : M (matrix scalar) :=
  match v with
  | Some a => ret (transpose a)
  | None => raise AttributeError
  end.

(** [v.shape] *)
Definition getattr_shape (v : option (matrix scalar)) : M (nat * nat) :=
  match v with
  | Some a => ret (shape a)
  | None => raise AttributeError
  end.

(** [np.random.randn(r, c)]: [r * c] successive draws, row by row. *)
Definition np_random_randn (r c : nat) : M (matrix scalar) :=
  lib_call (EvRandn r c)
           (fun w =>
              let (xs, g) := draws (r * c) (rng_state w) in
              ({| nrows := r; ncols := c; data := xs |}, set_rng g w)).

(** [a @ v] with an array on the left. *)
Definition np_matmul (a : matrix scalar) (v : option (matrix scalar)) : M (matrix scalar) :=
  match v with
  | None => raise ValueError
  | Some b =>
      if ncols a =? nrows b
      then lib_call (EvMatmul (nrows a) (ncols a) (ncols b))
                    (fun w => (matmul a b, w))
      else raise ValueError
  end.

(** [np.linalg.eigh(v)] *)
Definition np_linalg_eigh (v : option (matrix scalar)) : M (list scalar * matrix scalar) :=
  match v with
  | None => raise LinAlgError
  | Some a =>
      if nrows a =? ncols a
      then lib_call (EvEigh (nrows a)) (fun w => (syevd a, w))
      else raise LinAlgError
  end.

(** [pyperf.perf_counter()]: reads the clock. *)
Definition perf_counter : M Z :=
  fun w => (Ok (clock w), log (EvPerfCounter (clock w)) w).

(** [pyperf.Runner()] *)
Definition pyperf_Runner : M unit := fun w => (Ok tt, log EvRunner w).

(** The harness calls the time function once per step of its plan and
    keeps the returned durations. *)
Fixpoint run_plan (steps : list (list (nat * Z) -> nat)) (time_func : nat -> M Z)
         (samples : list (nat * Z)) : M (list (nat * Z)) :=
  match steps with
  | [] => ret samples
  | choose :: rest =>
      d <- time_func (choose samples) ;;
      run_plan rest time_func (samples ++ [(choose samples, d)])
  end.

(** [runner.bench_time_func(name, time_func)] *)
Definition bench_time_func (name : string) (time_func : nat -> M Z) : M unit :=
  samples <- run_plan (plan name) time_func [] ;;
  fun w => (Ok tt, log (EvReport name samples) w).

(** ** The script *)

#[warnings="-abstract-large-number"]
Definition n_rows : nat := 100000.
Definition n_cols : nat := 1000.

(** The body of [setup_matrices], for given dimensions. *)
Definition setup_matrices_with (r c : nat) : M unit :=
  x <- np_random_randn r c ;;
  store_X x ;;
  x1 <- load_X ;;
  xt <- getattr_T x1 ;;
  x2 <- load_X ;;
  xtx <- np_matmul xt x2 ;;
  store_C xtx.

Definition setup_matrices : M unit := setup_matrices_with n_rows n_cols.

(** The statement [X.T @ X] of the first loop; the product is dropped. *)
Definition kernel_matmul : M unit :=
  x1 <- load_X ;;
  xt <- getattr_T x1 ;;
  x2 <- load_X ;;
  _ <- np_matmul xt x2 ;;
  ret tt.

(** The statement [np.linalg.eigh(C)] of the second loop. *)
Definition kernel_eigh : M unit :=
  c <- load_C ;;
  _ <- np_linalg_eigh c ;;
  ret tt.

Definition benchmark_matmul (loops : nat) : M Z :=
  t0 <- perf_counter ;;
  for_range loops kernel_matmul ;;
  t1 <- perf_counter ;;
  ret (t1 - t0)%Z.

Definition benchmark_eigendecomposition (loops : nat) : M Z :=
  t0 <- perf_counter ;;
  for_range loops kernel_eigh ;;
  t1 <- perf_counter ;;
  ret (t1 - t0)%Z.

Definition rule : string := str_mul "=" 70.
Definition dashes : string := str_mul "-" 70.

Definition main : M unit :=
  print rule ;;
  print "Matrix Multiplication and Eigendecomposition Benchmark (pyperf)" ;;
  print rule ;;
  print EmptyString ;;
  setup_matrices ;;
  pyperf_Runner ;;
  print dashes ;;
  print "BENCHMARK 1: Matrix Multiplication (X'*X)" ;;
  x <- load_X ;;
  sx <- getattr_shape x ;;
  print ("Matrix X shape: " ++ str_of_shape sx) ;;
  print dashes ;;
  bench_time_func "matmul" benchmark_matmul ;;
  print EmptyString ;;
  print dashes ;;
  print "BENCHMARK 2: Eigendecomposition of C" ;;
  c <- load_C ;;
  sc <- getattr_shape c ;;
  print ("Matrix C shape: " ++ str_of_shape sc) ;;
  print dashes ;;
  bench_time_func "eigendecomposition" benchmark_eigendecomposition.

(** [if __name__ == "__main__": main()]: the exit status of the process. *)
Definition script (w : world scalar rng) : Z * world scalar rng :=
  match main w with
  | (Ok _, w1) => (0%Z, w1)
  | (Err _, w1) => (1%Z, w1)
  end.

(** ** Vocabulary of the statements *)

(** No library call fails among the next [n]. *)
Definition quiet (w : world scalar rng) (n : nat) : Prop :=
  forall i, calls w <= i < calls w + n -> fault i = None.

(** Ticks taken by the library calls number [i], ..., [i + n - 1]. *)
Fixpoint total_cost (i n : nat) : Z :=
  match n with
  | O => 0%Z
  | S k => (cost i + total_cost (S i) k)%Z
  end.

(** The world after [n] more library calls that each logged [ev] and
    touched nothing but the clock. *)
Definition after_kernels (ev : event) (n : nat) (w : world scalar rng)
  : world scalar rng :=
  {| gX := gX w; gC := gC w; rng_state := rng_state w;
     clock := (clock w + total_cost (calls w) n)%Z;
     calls := calls w + n;
     trace := trace w ++ repeat ev n |}.

(** The array [randn] returns from generator state [g]. *)
Definition drawn (r c : nat) (g : rng) : matrix scalar :=
  {| nrows := r; ncols := c; data := fst (draws (r * c) g) |}.

(** The world after a [setup_matrices] in which nothing failed. *)
Definition after_setup (r c : nat) (w : world scalar rng) : world scalar rng :=
  let x := drawn r c (rng_state w) in
  {| gX := Some x;
     gC := Some (matmul (transpose x) x);
     rng_state := snd (draws (r * c) (rng_state w));
     clock := (clock w + cost (calls w) + cost (S (calls w)))%Z;
     calls := S (S (calls w));
     trace := trace w ++ [EvRandn r c; EvMatmul c r c] |}.

(** The log of one timed batch: a clock read, [n] kernels, a clock read. *)
Definition timed_batch (ev : event) (n : nat) (t0 t1 : Z) : list event :=
  EvPerfCounter t0 :: repeat ev n ++ [EvPerfCounter t1].

(** [out] is the outcome of timing exactly [n] kernels [ev] from [w]:
    the value returned is the difference of the two clock reads, the log
    grew by one timed batch, and the time between the reads is the time
    of those [n] library calls. *)
Definition times_exactly (ev : event) (n : nat) (w : world scalar rng)
           (out : result Z * world scalar rng) : Prop :=
  fst out = Ok (clock (snd out) - clock w)%Z
  /\ trace (snd out) = trace w ++ timed_batch ev n (clock w) (clock (snd out))
  /\ (clock (snd out) - clock w)%Z = total_cost (calls w) n
  /\ calls (snd out) = calls w + n.

(** The world between the two library calls of the set-up. *)
Definition half_setup (r c : nat) (w : world scalar rng) : world scalar rng :=
  {| gX := Some (drawn r c (rng_state w));
     gC := gC w;
     rng_state := snd (draws (r * c) (rng_state w));
     clock := (clock w + cost (calls w))%Z;
     calls := S (calls w);
     trace := trace w ++ [EvRandn r c] |}.

(** The globals and the generator are as before. *)
Definition same_data (w w' : world scalar rng) : Prop :=
  gX w' = gX w /\ gC w' = gC w /\ rng_state w' = rng_state w.

(** [w'] extends the log of [w] by events that all satisfy [p]. *)
Definition logs_only (p : event -> bool) (w w' : world scalar rng) : Prop :=
  exists new, trace w' = trace w ++ new /\ forallb p new = true.

(** [R] relates every world to the one [m] leaves behind. *)
Definition always {A} (R : world scalar rng -> world scalar rng -> Prop) (m : M A)
  : Prop :=
  forall w, R w (snd (m w)).

(** Whatever a library call raises during [m] is what [m] raises, and
    that call is the last one [m] makes. *)
Definition propagates {A} (m : M A) : Prop :=
  forall w i e,
    calls w <= i < calls (snd (m w)) ->
    fault i = Some e ->
    fst (m w) = Err e /\ calls (snd (m w)) = S i.

(** What [main] prints before the set-up, and before each benchmark. *)
Definition banner : list event :=
  [EvPrint rule;
   EvPrint "Matrix Multiplication and Eigendecomposition Benchmark (pyperf)";
   EvPrint rule;
   EvPrint EmptyString].

Definition header_matmul (sh : nat * nat) : list event :=
  [EvPrint dashes;
   EvPrint "BENCHMARK 1: Matrix Multiplication (X'*X)";
   EvPrint ("Matrix X shape: " ++ str_of_shape sh);
   EvPrint dashes].

Definition header_eigh (sh : nat * nat) : list event :=
  [EvPrint EmptyString;
   EvPrint dashes;
   EvPrint "BENCHMARK 2: Eigendecomposition of C";
   EvPrint ("Matrix C shape: " ++ str_of_shape sh);
   EvPrint dashes].

(** The log of a complete run of [main], given what was logged while
    each benchmark was being timed and what the harness reported. *)
Definition linear_run (tA tB : list event) (sA sB : list (nat * Z)) : list event :=
  banner
    ++ [EvRandn n_rows n_cols; EvMatmul n_cols n_rows n_cols]
    ++ [EvRunner]
    ++ header_matmul (n_rows, n_cols)
    ++ tA ++ [EvReport "matmul" sA]
    ++ header_eigh (n_cols, n_cols)
    ++ tB ++ [EvReport "eigendecomposition" sB].

(** The same environment with another eigen-solver. *)
Definition with_solver
           (solver : matrix scalar -> list scalar * matrix scalar)
  : Env scalar rng :=
  {| next_normal := next_normal;
     syevd := solver;
     fault := fault;
     cost := cost;
     plan := plan |}.

(** [l] is an initial segment of [l']. *)
Definition prefix_of (l l' : list event) : Prop := exists rest, l' = l ++ rest.

End Script.

(** The value Kernel B returns from [w] carries the eigenvalues of [c]:
    whatever the solver computes for [c] can be read back from the returned
    value. *)
Definition eigenvalues_returned {scalar rng : Type} {SC : Scalar scalar}
           (E : Env scalar rng) (loops : nat) (w : world scalar rng)
           (c : matrix scalar) : Prop :=
  exists decode : result Z -> list scalar,
    forall solver,
      decode (fst (benchmark_eigendecomposition (E := with_solver solver) loops w))
      = fst (solver c).

Declare Scope script_scope.
Delimit Scope script_scope with script.
Notation "x <- m ;; k" := (bind m (fun x => k))
  (at level 61, m at next level, right associativity) : script_scope.
Notation "m ;; k" := (bind m (fun _ => k))
  (at level 61, right associativity) : script_scope.
Open Scope script_scope.

(** ** A small concrete environment

    Integer entries, a linear congruential generator in place of the
    normal sampler, and a stand-in for the eigen-solver that reads the
    diagonal.  It serves to run the script's functions on explicit inputs. *)

Module Demo.

#[global] Instance Z_scalar : Scalar Z :=
  {| szero := 0%Z; sadd := Z.add; smul := Z.mul |}.

Definition lcg (g : Z) : Z * Z :=
  ((g mod 7 - 3)%Z, ((1103515245 * g + 12345) mod 2147483648)%Z).

Definition diag_solver (shift : Z) (a : matrix Z) : list Z * matrix Z :=
  (map (fun i => (entry a i i + shift)%Z) (seq 0 (nrows a)), a).

Definition env (shift : Z) (faults : nat -> option exn) (costs : nat -> Z)
  : Env Z Z :=
  {| next_normal := lcg;
     syevd := diag_solver shift;
     fault := faults;
     cost := costs;
     plan := fun _ => [fun _ => 1; fun samples => 2 * length samples] |}.

Definition no_fault : nat -> option exn := fun _ => None.
Definition unit_cost : nat -> Z := fun _ => 1%Z.

(** The environment in which nothing fails and every call takes one tick. *)
Definition calm : Env Z Z := env 0 no_fault unit_cost.

(** The environment in which the second library call fails to converge. *)
Definition faulty : Env Z Z :=
  env 0 (fun i => if i =? 1 then Some LinAlgError else None) unit_cost.

(** The module as imported, generator seeded with 42, clock at 1000. *)
Definition fresh : world Z Z := module_init 42%Z 1000%Z.

(** A hand-written 3 x 2 array and the world holding it and its product. *)
Definition x32 : matrix Z :=
  {| nrows := 3; ncols := 2; data := [-3; 1; -3; 3; -2; -2]%Z |}.

Definition c22 : matrix Z := matmul (transpose x32) x32.

Definition tiny : world Z Z :=
  {| gX := Some x32; gC := Some c22; rng_state := 7%Z;
     clock := 1000%Z; calls := 0; trace := [] |}.

(** The scaled-down scenario: the world a set-up with 100 rows and 10
    columns leaves behind, its array and the 10 x 10 product. *)
Definition small : world Z Z := after_setup (E := calm) 100 10 fresh.

Definition small_X : matrix Z := drawn (E := calm) 100 10 42%Z.

Definition small_C : matrix Z := matmul (transpose small_X) small_X.

(** The environment in which the second library call cannot allocate. *)
Definition out_of_memory : Env Z Z :=
  env 0 (fun i => if i =? 1 then Some MemoryError else None) unit_cost.

(** A world whose [C] is not square. *)
Definition skewed : world Z Z :=
  {| gX := Some x32; gC := Some x32; rng_state := 7%Z;
     clock := 1000%Z; calls := 0; trace := [] |}.

End Demo.

(** * Properties *)

(** ** Arrays *)

Section ArrayFacts.

Context {scalar : Type} {SC : Scalar scalar}.

Lemma nth_rows (f : nat -> nat -> scalar) (c : nat) (d : scalar) :
  forall r s i j,
    i < r -> j < c ->
    nth (i * c + j) (flat_map (fun i => map (f i) (seq 0 c)) (seq s r)) d
    = f (s + i) j.
Proof.
  induction r as [|r IH]; intros s i j Hi Hj; [lia|].
  cbn [seq flat_map].
  destruct i as [|i].
  - rewrite app_nth1 by (rewrite length_map, length_seq; exact Hj).
    cbn [Nat.mul Nat.add].
    rewrite (nth_indep _ d (f s 0)) by (rewrite length_map, length_seq; exact Hj).
    rewrite map_nth, seq_nth by exact Hj.
    now rewrite Nat.add_0_r.
  - rewrite app_nth2 by (rewrite length_map, length_seq; cbn [Nat.mul]; lia).
    rewrite length_map, length_seq.
    replace (S i * c + j - c) with (i * c + j) by (cbn [Nat.mul]; lia).
    rewrite IH by lia.
    f_equal; lia.
Qed.

Lemma length_rows (f : nat -> nat -> scalar) (c : nat) :
  forall r s,
    List.length (flat_map (fun i => map (f i) (seq 0 c)) (seq s r)) = r * c.
Proof.
  induction r as [|r IH]; intros s; [reflexivity|].
  cbn [seq flat_map].
  now rewrite length_app, length_map, length_seq, IH.
Qed.

Lemma entry_build r c (f : nat -> nat -> scalar) i j :
  i < r -> j < c -> entry (build r c f) i j = f i j.
Proof.
  intros Hi Hj. unfold entry, build, tabulate; cbn [ncols data].
  now rewrite nth_rows.
Qed.

Lemma length_build r c (f : nat -> nat -> scalar) :
  List.length (data (build r c f)) = r * c.
Proof. apply length_rows. Qed.

Lemma entry_transpose (a : matrix scalar) i j :
  i < ncols a -> j < nrows a -> entry (transpose a) i j = entry a j i.
Proof. intros Hi Hj. unfold transpose. now rewrite entry_build. Qed.

Lemma shape_transpose (a : matrix scalar) :
  shape (transpose a) = (ncols a, nrows a).
Proof. reflexivity. Qed.

Lemma shape_matmul (a b : matrix scalar) :
  shape (matmul a b) = (nrows a, ncols b).
Proof. reflexivity. Qed.

Lemma fold_sum_ext (F G : nat -> scalar) :
  forall l acc,
    (forall k, In k l -> F k = G k) ->
    fold_left (fun s k => sadd s (F k)) l acc
    = fold_left (fun s k => sadd s (G k)) l acc.
Proof.
  induction l as [|k l IH]; intros acc H; [reflexivity|].
  cbn [fold_left]. rewrite (H k) by (left; reflexivity).
  apply IH. intros k' Hk'. apply H. now right.
Qed.

Lemma dot_ext n (f g f' g' : nat -> scalar) :
  (forall k, k < n -> smul (f k) (g k) = smul (f' k) (g' k)) ->
  dot n f g = dot n f' g'.
Proof.
  intros H. unfold dot.
  apply (fold_sum_ext (fun k => smul (f k) (g k)) (fun k => smul (f' k) (g' k))).
  intros k Hk. apply H. apply in_seq in Hk. lia.
Qed.

(** The product of a transpose with the array itself is a square array
    of side the number of columns, symmetric as soon as multiplying two
    entries does not depend on their order. *)
Lemma gram_symmetric (x : matrix scalar) :
  (forall a b : scalar, smul a b = smul b a) ->
  symmetric (matmul (transpose x) x).
Proof.
  intros Hcomm i j Hi Hj.
  unfold matmul in *. cbn [nrows ncols transpose build] in *.
  rewrite !entry_build by assumption.
  apply dot_ext. intros k Hk.
  fold (transpose x).
  rewrite !entry_transpose by assumption.
  apply Hcomm.
Qed.

End ArrayFacts.

(** ** Running the monad *)

Section Runs.

Context {scalar rng : Type} {SC : Scalar scalar} {E : Env scalar rng}.

Implicit Types w : world scalar rng.

Lemma world_eq w w' :
  gX w = gX w' -> gC w = gC w' -> rng_state w = rng_state w' ->
  clock w = clock w' -> calls w = calls w' -> trace w = trace w' ->
  w = w'.
Proof. destruct w, w'; cbn; intros; subst; reflexivity. Qed.

Lemma bind_ok {A B} (m : M A) (k : A -> M B) w a w1 :
  m w = (Ok a, w1) -> bind m k w = k a w1.
Proof. intros H. unfold bind. now rewrite H. Qed.

Lemma bind_err {A B} (m : M A) (k : A -> M B) w e w1 :
  m w = (Err e, w1) -> bind m k w = (Err e, w1).
Proof. intros H. unfold bind. now rewrite H. Qed.

(** Every run of [bind m k] is a run of [m], followed, when [m]
    returned, by a run of the continuation. *)
Lemma bind_cases {A B} (m : M A) (k : A -> M B) w :
  (exists a w1, m w = (Ok a, w1) /\ bind m k w = k a w1)
  \/ (exists e w1, m w = (Err e, w1) /\ bind m k w = (Err e, w1)).
Proof.
  unfold bind. destruct (m w) as [[a|e] w1].
  - left. now exists a, w1.
  - right. now exists e, w1.
Qed.

(** *** Relations kept by every step *)

Section Always.

Variable R : world scalar rng -> world scalar rng -> Prop.
Hypothesis R_refl : forall w, R w w.
Hypothesis R_trans : forall w1 w2 w3, R w1 w2 -> R w2 w3 -> R w1 w3.

Lemma always_ret {A} (a : A) : always R (ret a).
Proof. intros w. apply R_refl. Qed.

Lemma always_raise {A} (e : exn) : always R (raise (A := A) e).
Proof. intros w. apply R_refl. Qed.

Lemma always_bind {A B} (m : M A) (k : A -> M B) :
  always R m -> (forall a, always R (k a)) -> always R (bind m k).
Proof.
  intros Hm Hk w.
  destruct (bind_cases m k w) as [(a & w1 & Hw & ->) | (e & w1 & Hw & ->)].
  - apply R_trans with w1.
    + specialize (Hm w). now rewrite Hw in Hm.
    + apply Hk.
  - specialize (Hm w). now rewrite Hw in Hm.
Qed.

Lemma always_for_range (body : M unit) n :
  always R body -> always R (for_range n body).
Proof.
  intros Hb. induction n as [|n IH]; cbn [for_range].
  - apply always_ret.
  - apply always_bind; auto.
Qed.

Lemma always_run_plan (f : nat -> M Z) :
  (forall n, always R (f n)) ->
  forall steps samples, always R (run_plan steps f samples).
Proof.
  intros Hf. induction steps as [|choose steps IH]; intros samples;
    cbn [run_plan].
  - apply always_ret.
  - apply always_bind; auto.
Qed.

Lemma always_load_X : always R load_X.
Proof. intros w. apply R_refl. Qed.

Lemma always_load_C : always R load_C.
Proof. intros w. apply R_refl. Qed.

Lemma always_getattr_T v : always R (getattr_T v).
Proof. destruct v; [apply always_ret | apply always_raise]. Qed.

(** A library call keeps [R] when entering it, and logging it after
    its time has passed, both do. *)
Lemma always_lib_call {A} ev (a : A) :
  (forall w, R w (enter w)) ->
  (forall w d, R w (log ev (advance d (enter w)))) ->
  always R (lib_call ev (fun w => (a, w))).
Proof.
  intros Henter Hdone w. unfold lib_call.
  destruct (fault (calls w)); cbn [snd]; auto.
Qed.

Lemma always_np_matmul a v :
  (forall w, R w (enter w)) ->
  (forall w d ev, is_matmul ev = true -> R w (log ev (advance d (enter w)))) ->
  always R (np_matmul a v).
Proof.
  intros Henter Hdone. unfold np_matmul.
  destruct v as [b|]; [|apply always_raise].
  destruct (ncols a =? nrows b); [|apply always_raise].
  apply always_lib_call; auto.
Qed.

Lemma always_np_linalg_eigh v :
  (forall w, R w (enter w)) ->
  (forall w d ev, is_eigh ev = true -> R w (log ev (advance d (enter w)))) ->
  always R (np_linalg_eigh v).
Proof.
  intros Henter Hdone. unfold np_linalg_eigh.
  destruct v as [a|]; [|apply always_raise].
  destruct (nrows a =? ncols a); [|apply always_raise].
  apply always_lib_call; auto.
Qed.

Lemma always_kernel_matmul :
  (forall w, R w (enter w)) ->
  (forall w d ev, is_matmul ev = true -> R w (log ev (advance d (enter w)))) ->
  always R kernel_matmul.
Proof.
  intros Henter Hdone. unfold kernel_matmul.
  repeat (apply always_bind; [|intros ?]);
    auto using always_load_X, always_getattr_T, always_np_matmul, always_ret.
Qed.

Lemma always_kernel_eigh :
  (forall w, R w (enter w)) ->
  (forall w d ev, is_eigh ev = true -> R w (log ev (advance d (enter w)))) ->
  always R kernel_eigh.
Proof.
  intros Henter Hdone. unfold kernel_eigh.
  repeat (apply always_bind; [|intros ?]);
    auto using always_load_C, always_np_linalg_eigh, always_ret.
Qed.

Lemma always_benchmark_matmul n :
  (forall w, R w (enter w)) ->
  (forall w d ev, is_matmul ev = true -> R w (log ev (advance d (enter w)))) ->
  (forall w t, R w (log (EvPerfCounter t) w)) ->
  always R (benchmark_matmul n).
Proof.
  intros Henter Hdone Hperf. unfold benchmark_matmul.
  assert (Hpc : always R perf_counter) by (intros w; apply Hperf).
  repeat (apply always_bind; [|intros ?]);
    auto using always_for_range, always_kernel_matmul, always_ret.
Qed.

Lemma always_benchmark_eigendecomposition n :
  (forall w, R w (enter w)) ->
  (forall w d ev, is_eigh ev = true -> R w (log ev (advance d (enter w)))) ->
  (forall w t, R w (log (EvPerfCounter t) w)) ->
  always R (benchmark_eigendecomposition n).
Proof.
  intros Henter Hdone Hperf. unfold benchmark_eigendecomposition.
  assert (Hpc : always R perf_counter) by (intros w; apply Hperf).
  repeat (apply always_bind; [|intros ?]);
    auto using always_for_range, always_kernel_eigh, always_ret.
Qed.

End Always.

(** *** The two relations used below are preorders *)

Lemma same_data_refl w : same_data w w.
Proof. now repeat split. Qed.

Lemma same_data_trans w1 w2 w3 :
  same_data w1 w2 -> same_data w2 w3 -> same_data w1 w3.
Proof.
  intros (HX & HC & Hg) (HX' & HC' & Hg'). repeat split; congruence.
Qed.

Lemma logs_only_refl p w : logs_only p w w.
Proof. exists []. now rewrite app_nil_r. Qed.

Lemma logs_only_trans p w1 w2 w3 :
  logs_only p w1 w2 -> logs_only p w2 w3 -> logs_only p w1 w3.
Proof.
  intros (l & Hl & Pl) (l' & Hl' & Pl'). exists (l ++ l'). split.
  - now rewrite Hl', Hl, app_assoc.
  - rewrite forallb_app, Pl, Pl'. reflexivity.
Qed.

Lemma logs_only_log p ev w w' :
  p ev = true -> trace w' = trace w -> logs_only p w (log ev w').
Proof.
  intros Hp Ht. exists [ev]. cbn. now rewrite Ht, Hp.
Qed.

(** *** Runs in which no library call fails *)

Lemma lib_call_ok {A} ev (a : A) w :
  fault (calls w) = None ->
  lib_call ev (fun w => (a, w)) w
  = (Ok a, log ev (advance (cost (calls w)) (enter w))).
Proof. intros H. unfold lib_call. now rewrite H. Qed.

Lemma lib_call_err {A} ev (run : world scalar rng -> A * world scalar rng) w e :
  fault (calls w) = Some e ->
  lib_call ev run w = (Err e, enter w).
Proof. intros H. unfold lib_call. now rewrite H. Qed.

Lemma quiet_head w n : quiet w (S n) -> fault (calls w) = None.
Proof. intros H. apply H. lia. Qed.

Lemma quiet_tail w w' n :
  calls w' = S (calls w) -> quiet w (S n) -> quiet w' n.
Proof. intros Hc H i Hi. apply H. lia. Qed.

Lemma quiet_le w n m : n <= m -> quiet w m -> quiet w n.
Proof. intros Hnm H i Hi. apply H. lia. Qed.

Lemma quiet_shift w w' k n :
  calls w' = calls w + k -> quiet w (k + n) -> quiet w' n.
Proof. intros Hc H i Hi. apply H. lia. Qed.

Lemma after_kernels_0 ev w : after_kernels ev 0 w = w.
Proof.
  apply world_eq; cbn; try reflexivity.
  - lia.
  - lia.
  - apply app_nil_r.
Qed.

Lemma after_kernels_S ev n w :
  after_kernels ev n (after_kernels ev 1 w) = after_kernels ev (S n) w.
Proof.
  apply world_eq; cbn; try reflexivity.
  - replace (calls w + 1) with (S (calls w)) by lia. lia.
  - lia.
  - now rewrite <- app_assoc.
Qed.

(** A loop whose body is one successful library call. *)
Lemma for_range_after (body : M unit) ev gx gc :
  (forall w, gX w = gx -> gC w = gc -> fault (calls w) = None ->
             body w = (Ok tt, after_kernels ev 1 w)) ->
  forall n w, gX w = gx -> gC w = gc -> quiet w n ->
              for_range n body w = (Ok tt, after_kernels ev n w).
Proof.
  intros Hbody. induction n as [|n IH]; intros w HX HC Hq; cbn [for_range].
  - unfold ret. now rewrite after_kernels_0.
  - rewrite (bind_ok _ _ _ (Hbody w HX HC (quiet_head Hq))).
    rewrite IH; try assumption.
    + now rewrite after_kernels_S.
    + apply quiet_tail with w; [cbn; lia | exact Hq].
Qed.

Lemma kernel_matmul_ok w x :
  gX w = Some x -> fault (calls w) = None ->
  kernel_matmul w
  = (Ok tt, after_kernels (EvMatmul (ncols x) (nrows x) (ncols x)) 1 w).
Proof.
  intros HX Hf. unfold kernel_matmul, bind, load_X. rewrite HX.
  cbn [getattr_T ret]. rewrite HX.
  cbn [np_matmul transpose build ncols nrows].
  rewrite Nat.eqb_refl, lib_call_ok by exact Hf.
  unfold ret. f_equal. apply world_eq; cbn; try reflexivity; lia.
Qed.

Lemma kernel_eigh_ok w c :
  gC w = Some c -> nrows c = ncols c -> fault (calls w) = None ->
  kernel_eigh w = (Ok tt, after_kernels (EvEigh (nrows c)) 1 w).
Proof.
  intros HC Hsq Hf. unfold kernel_eigh, bind, load_C. rewrite HC.
  cbn [np_linalg_eigh]. rewrite Hsq, Nat.eqb_refl, lib_call_ok by exact Hf.
  unfold ret. f_equal. apply world_eq; cbn; try reflexivity; lia.
Qed.

(** The world a timed batch of [n] kernels leaves behind. *)
Lemma timed_batch_ok (body : M unit) ev n w :
  for_range n body (log (EvPerfCounter (clock w)) w)
  = (Ok tt, after_kernels ev n (log (EvPerfCounter (clock w)) w)) ->
  (t0 <- perf_counter ;; for_range n body ;; t1 <- perf_counter ;; ret (t1 - t0)%Z) w
  = (Ok (total_cost (calls w) n),
     log (EvPerfCounter (clock w + total_cost (calls w) n))
         (after_kernels ev n (log (EvPerfCounter (clock w)) w))).
Proof.
  intros Hloop. unfold bind at 1. unfold perf_counter at 1.
  rewrite (bind_ok _ _ _ Hloop).
  unfold bind, perf_counter, ret. cbn [clock after_kernels log calls].
  f_equal. f_equal. lia.
Qed.

Lemma benchmark_matmul_ok n w x :
  gX w = Some x -> quiet w n ->
  benchmark_matmul n w
  = (Ok (total_cost (calls w) n),
     log (EvPerfCounter (clock w + total_cost (calls w) n))
         (after_kernels (EvMatmul (ncols x) (nrows x) (ncols x)) n
                        (log (EvPerfCounter (clock w)) w))).
Proof.
  intros HX Hq. unfold benchmark_matmul. apply timed_batch_ok.
  apply for_range_after with (gx := Some x) (gc := gC w); try assumption.
  - intros w' HX' _ Hf. now apply kernel_matmul_ok.
  - reflexivity.
Qed.

Lemma benchmark_eigendecomposition_ok n w c :
  gC w = Some c -> nrows c = ncols c -> quiet w n ->
  benchmark_eigendecomposition n w
  = (Ok (total_cost (calls w) n),
     log (EvPerfCounter (clock w + total_cost (calls w) n))
         (after_kernels (EvEigh (nrows c)) n
                        (log (EvPerfCounter (clock w)) w))).
Proof.
  intros HC Hsq Hq. unfold benchmark_eigendecomposition. apply timed_batch_ok.
  apply for_range_after with (gx := gX w) (gc := Some c); try assumption.
  - intros w' _ HC' Hf. now apply kernel_eigh_ok.
  - reflexivity.
Qed.

End Runs.

(** ** The set-up *)

Section SetupFacts.

Context {scalar rng : Type} {SC : Scalar scalar} {E : Env scalar rng}.

Implicit Types w : world scalar rng.

Lemma length_draws n : forall g : rng, List.length (fst (draws n g)) = n.
Proof.
  induction n as [|n IH]; intros g; cbn [draws]; [reflexivity|].
  destruct (next_normal g) as [x g1]. specialize (IH g1).
  destruct (draws n g1) as [xs g2]. cbn in *. now rewrite IH.
Qed.

(** The three ways a set-up can go. *)
Lemma setup_matrices_with_cases r c w :
  setup_matrices_with r c w
  = match fault (calls w) with
    | Some e => (Err e, enter w)
    | None =>
        match fault (S (calls w)) with
        | Some e => (Err e, enter (half_setup r c w))
        | None => (Ok tt, after_setup r c w)
        end
    end.
Proof.
  unfold setup_matrices_with, bind, np_random_randn, lib_call.
  destruct (fault (calls w)) as [e|]; [reflexivity|].
  unfold after_setup, half_setup, drawn.
  destruct (draws (r * c) (rng_state (enter w))) as [xs g] eqn:Hd.
  cbn [rng_state enter] in Hd. rewrite Hd.
  cbn [store_X load_X getattr_T ret gX set_X log advance set_rng enter fst snd
       np_matmul transpose build ncols nrows].
  rewrite Nat.eqb_refl. unfold lib_call.
  cbn [calls set_X log advance set_rng enter].
  destruct (fault (S (calls w))) as [e|].
  - f_equal.
  - unfold store_C. f_equal. apply world_eq; cbn; try reflexivity.
    now rewrite <- app_assoc.
Qed.

Lemma setup_matrices_with_ok r c w :
  quiet w 2 -> setup_matrices_with r c w = (Ok tt, after_setup r c w).
Proof.
  intros Hq. rewrite setup_matrices_with_cases.
  rewrite (Hq (calls w)), (Hq (S (calls w))) by lia. auto.
Qed.

(** What a completed set-up leaves in the globals, whatever else
    happened. *)
Lemma setup_matrices_with_done r c w w' :
  setup_matrices_with r c w = (Ok tt, w') -> w' = after_setup r c w.
Proof.
  rewrite setup_matrices_with_cases.
  destruct (fault (calls w)); [discriminate|].
  destruct (fault (S (calls w))); [discriminate|].
  now intros [= <-].
Qed.

End SetupFacts.

(** ** Exceptions are not caught *)

Section Propagation.

Context {scalar rng : Type} {SC : Scalar scalar} {E : Env scalar rng}.

Implicit Types w : world scalar rng.

(** An operation that is not a library call. *)
Lemma propagates_local {A} (m : M A) :
  (forall w, calls (snd (m w)) = calls w) -> propagates m.
Proof. intros H w i e Hi _. rewrite H in Hi. lia. Qed.

Lemma propagates_bind {A B} (m : M A) (k : A -> M B) :
  propagates m -> (forall a, propagates (k a)) -> propagates (bind m k).
Proof.
  intros Hm Hk w i e Hi Hf.
  destruct (bind_cases m k w) as [(a & w1 & Hw & Hb) | (e' & w1 & Hw & Hb)];
    rewrite Hb in *.
  - destruct (Nat.lt_ge_cases i (calls w1)) as [Hlt | Hge].
    + destruct (Hm w i e) as [Habs _]; [rewrite Hw; cbn; lia | exact Hf |].
      rewrite Hw in Habs. discriminate.
    + apply Hk; [lia | exact Hf].
  - specialize (Hm w i e). rewrite Hw in Hm. cbn in *.
    destruct (Hm Hi Hf) as [[= ->] Hc]. now split.
Qed.

Lemma propagates_for_range (body : M unit) n :
  propagates body -> propagates (for_range n body).
Proof.
  intros Hb. induction n as [|n IH]; cbn [for_range].
  - now apply propagates_local.
  - apply propagates_bind; auto.
Qed.

Lemma propagates_run_plan (f : nat -> M Z) :
  (forall n, propagates (f n)) ->
  forall steps samples, propagates (run_plan steps f samples).
Proof.
  intros Hf. induction steps as [|choose steps IH]; intros samples;
    cbn [run_plan].
  - now apply propagates_local.
  - apply propagates_bind; auto.
Qed.

Lemma propagates_lib_call {A} ev (run : world scalar rng -> A * world scalar rng) :
  (forall w, calls (snd (run w)) = calls w) ->
  propagates (lib_call ev run).
Proof.
  intros Hrun w i e. unfold lib_call.
  destruct (fault (calls w)) as [e0|] eqn:Hf0.
  - cbn. intros Hi Hf. assert (i = calls w) by lia. subst i.
    split; [congruence | reflexivity].
  - specialize (Hrun (enter w)).
    destruct (run (enter w)) as [a w1]. cbn in *.
    intros Hi Hf. assert (i = calls w) by lia. congruence.
Qed.

Lemma propagates_np_random_randn r c : propagates (np_random_randn r c).
Proof.
  apply propagates_lib_call. intros w.
  now destruct (draws (r * c) (rng_state w)).
Qed.

Lemma propagates_np_matmul a v : propagates (np_matmul a v).
Proof.
  unfold np_matmul. destruct v as [b|]; [|now apply propagates_local].
  destruct (ncols a =? nrows b); [|now apply propagates_local].
  now apply propagates_lib_call.
Qed.

Lemma propagates_np_linalg_eigh v : propagates (np_linalg_eigh v).
Proof.
  unfold np_linalg_eigh. destruct v as [a|]; [|now apply propagates_local].
  destruct (nrows a =? ncols a); [|now apply propagates_local].
  now apply propagates_lib_call.
Qed.

Lemma propagates_getattr_T v : propagates (getattr_T v).
Proof. destruct v; now apply propagates_local. Qed.

Lemma propagates_getattr_shape v : propagates (getattr_shape v).
Proof. destruct v; now apply propagates_local. Qed.

Lemma propagates_bench_time_func name (f : nat -> M Z) :
  (forall n, propagates (f n)) -> propagates (bench_time_func name f).
Proof.
  intros Hf. unfold bench_time_func. apply propagates_bind.
  - now apply propagates_run_plan.
  - intros samples. now apply propagates_local.
Qed.

(** Known operations first, then one [bind] at a time. *)
Ltac propagate :=
  first [ apply propagates_np_random_randn
        | apply propagates_np_matmul
        | apply propagates_np_linalg_eigh
        | apply propagates_getattr_T
        | apply propagates_getattr_shape
        | apply propagates_for_range; propagate
        | apply propagates_bench_time_func; intros ?; propagate
        | now apply propagates_local
        | apply propagates_bind; [propagate | intros ?; propagate] ].

Lemma propagates_setup_matrices_with r c : propagates (setup_matrices_with r c).
Proof. unfold setup_matrices_with. propagate. Qed.

Lemma propagates_kernel_matmul : propagates kernel_matmul.
Proof. unfold kernel_matmul. propagate. Qed.

Lemma propagates_kernel_eigh : propagates kernel_eigh.
Proof. unfold kernel_eigh. propagate. Qed.

Lemma propagates_benchmark_matmul n : propagates (benchmark_matmul n).
Proof. unfold benchmark_matmul, kernel_matmul. propagate. Qed.

Lemma propagates_benchmark_eigendecomposition n :
  propagates (benchmark_eigendecomposition n).
Proof. unfold benchmark_eigendecomposition, kernel_eigh. propagate. Qed.

Lemma propagates_main : propagates main.
Proof.
  unfold main, setup_matrices, setup_matrices_with.
  unfold benchmark_matmul, benchmark_eigendecomposition, kernel_matmul, kernel_eigh.
  propagate.
Qed.

End Propagation.

(** * The claims *)

Section Claims.

Context {scalar rng : Type} {SC : Scalar scalar} {E : Env scalar rng}.

Implicit Types w : world scalar rng.

Lemma times_exactly_intro ev n w :
  times_exactly ev n w
    (Ok (total_cost (calls w) n),
     log (EvPerfCounter (clock w + total_cost (calls w) n))
         (after_kernels ev n (log (EvPerfCounter (clock w)) w))).
Proof.
  unfold times_exactly, timed_batch. cbn. repeat split.
  - f_equal. lia.
  - now rewrite <- !app_assoc.
  - lia.
Qed.

(** C1.  Given the pre-built matrices, and as long as no library call
    fails, each runner called with repetition count [loops] reads the
    clock, invokes its kernel exactly [loops] times ([X.T @ X] on the
    shapes of [X], resp. [np.linalg.eigh] on [C]), reads the clock again
    and returns the difference of the two reads; nothing else happens
    between the two reads, and that difference is the time taken by
    exactly those [loops] library calls. *)
Theorem runners_time_exactly_loops_kernels loops w x c :
  gX w = Some x ->
  gC w = Some c ->
  nrows c = ncols c ->
  quiet w loops ->
  times_exactly (EvMatmul (ncols x) (nrows x) (ncols x)) loops w
                (benchmark_matmul loops w)
  /\ times_exactly (EvEigh (nrows c)) loops w
                   (benchmark_eigendecomposition loops w).
Proof.
  intros HX HC Hsq Hq. split.
  - rewrite (benchmark_matmul_ok HX Hq). apply times_exactly_intro.
  - rewrite (benchmark_eigendecomposition_ok HC Hsq Hq). apply times_exactly_intro.
Qed.

(** C2.  When its two library calls do not fail, [setup_matrices]
    returns and leaves in [X] an array of shape exactly
    [n_rows] x [n_cols], that is 100000 x 1000, whose buffer holds
    [n_rows * n_cols] entries. *)
Theorem setup_matrices_shape_X w :
  quiet w 2 ->
  fst (setup_matrices w) = Ok tt
  /\ exists x,
      gX (snd (setup_matrices w)) = Some x
      /\ shape x = (n_rows, n_cols)
      /\ List.length (data x) = n_rows * n_cols.
Proof.
  intros Hq. unfold setup_matrices.
  rewrite (setup_matrices_with_ok n_rows n_cols Hq). split; [reflexivity|].
  exists (drawn n_rows n_cols (rng_state w)). repeat split.
  apply length_draws.
Qed.

(** C5.  Whatever the repetition count, and whether or not a kernel
    fails, a runner leaves the globals [X] and [C] and the random
    generator exactly as it found them: only the clock, the call count
    and the log move. *)
Theorem runners_leave_matrices_untouched loops w :
  same_data w (snd (benchmark_matmul loops w))
  /\ same_data w (snd (benchmark_eigendecomposition loops w)).
Proof.
  split.
  - apply always_benchmark_matmul;
      first [ exact same_data_refl | exact same_data_trans
            | intros; now repeat split ].
  - apply always_benchmark_eigendecomposition;
      first [ exact same_data_refl | exact same_data_trans
            | intros; now repeat split ].
Qed.

(** C7.  Nothing is caught or retried: when a library call made by
    [setup_matrices], by either runner or by [main] raises, that very
    exception is the outcome of the function and the failed call is the
    last one it makes; and when [main] raises, the process ends with a
    non-zero status. *)
Theorem failures_propagate_uncaught :
  propagates setup_matrices
  /\ (forall loops, propagates (benchmark_matmul loops))
  /\ (forall loops, propagates (benchmark_eigendecomposition loops))
  /\ propagates main
  /\ (forall w e, fst (main w) = Err e -> fst (script w) = 1%Z).
Proof.
  split; [apply propagates_setup_matrices_with|].
  split; [exact propagates_benchmark_matmul|].
  split; [exact propagates_benchmark_eigendecomposition|].
  split; [exact propagates_main|].
  intros w e H. unfold script.
  destruct (main w) as [[u|e'] w1]; [discriminate|reflexivity].
Qed.

(** C3.  When the set-up completes, [C] is the product of the transpose
    of [X] with [X]; it is square of side [n_cols] and symmetric.  More
    generally the product of any array's transpose with the array is
    square of side its number of columns, and symmetric.  Entries are
    compared exactly: sums run in the same order on both sides of the
    diagonal, so only the commutativity of the entries' product is used. *)
Theorem setup_matrices_C_is_symmetric_gram
        (Hcomm : forall a b : scalar, smul a b = smul b a) w :
  quiet w 2 ->
  (fst (setup_matrices w) = Ok tt
   /\ exists x c,
       gX (snd (setup_matrices w)) = Some x
       /\ gC (snd (setup_matrices w)) = Some c
       /\ c = matmul (transpose x) x
       /\ shape c = (n_cols, n_cols)
       /\ symmetric c)
  /\ (forall x : matrix scalar,
        shape (matmul (transpose x) x) = (ncols x, ncols x)
        /\ symmetric (matmul (transpose x) x)).
Proof.
  intros Hq. split.
  - unfold setup_matrices.
    rewrite (setup_matrices_with_ok n_rows n_cols Hq). split; [reflexivity|].
    exists (drawn n_rows n_cols (rng_state w)).
    exists (matmul (transpose (drawn n_rows n_cols (rng_state w)))
                   (drawn n_rows n_cols (rng_state w))).
    repeat split. now apply gram_symmetric.
  - intros x. split; [reflexivity | now apply gram_symmetric].
Qed.

Lemma total_cost_nonneg (Hcost : forall i, (0 <= cost i)%Z) n :
  forall i, (0 <= total_cost i n)%Z.
Proof.
  induction n as [|n IH]; intros i; cbn [total_cost]; [lia|].
  specialize (Hcost i). specialize (IH (S i)). lia.
Qed.

Lemma total_cost_mono (Hcost : forall i, (0 <= cost i)%Z) n :
  forall m i, n <= m -> (total_cost i n <= total_cost i m)%Z.
Proof.
  induction n as [|n IH]; intros m i Hnm.
  - now apply total_cost_nonneg.
  - destruct m as [|m]; [lia|]. cbn [total_cost].
    specialize (IH m (S i)). lia.
Qed.

(** C8.  On the same pre-built data and from the same starting point, if
    every library call takes a non-negative amount of time, the duration
    returned by [benchmark_matmul] does not decrease when the repetition
    count grows; in particular the duration for 5 repetitions is at least
    the duration for 1. *)
Theorem benchmark_matmul_duration_monotone
        (Hcost : forall i, (0 <= cost i)%Z) w x n m :
  gX w = Some x ->
  quiet w m ->
  n <= m ->
  exists dn dm,
    fst (benchmark_matmul n w) = Ok dn
    /\ fst (benchmark_matmul m w) = Ok dm
    /\ (0 <= dn <= dm)%Z.
Proof.
  intros HX Hq Hnm.
  exists (total_cost (calls w) n), (total_cost (calls w) m).
  rewrite (benchmark_matmul_ok HX Hq).
  rewrite (benchmark_matmul_ok HX (quiet_le Hnm Hq)).
  repeat split.
  - now apply total_cost_nonneg.
  - now apply total_cost_mono.
Qed.


Lemma benchmark_matmul_None n w :
  gX w = None ->
  benchmark_matmul (S n) w = (Err AttributeError, log (EvPerfCounter (clock w)) w).
Proof.
  intros HX. unfold benchmark_matmul, bind, perf_counter.
  cbn [for_range]. unfold bind, kernel_matmul, bind, load_X.
  cbn [gX log]. now rewrite HX.
Qed.

Lemma benchmark_eigendecomposition_None n w :
  gC w = None ->
  benchmark_eigendecomposition (S n) w
  = (Err LinAlgError, log (EvPerfCounter (clock w)) w).
Proof.
  intros HC. unfold benchmark_eigendecomposition, bind, perf_counter.
  cbn [for_range]. unfold bind, kernel_eigh, bind, load_C.
  cbn [gC log]. now rewrite HC.
Qed.

(** C10.  The module starts with [X] and [C] both [None].  Called with a
    positive repetition count while [X] (resp. [C]) is still [None], a
    runner fails at its first kernel call, with [AttributeError] for
    [X.T] (resp. [LinAlgError] for [np.linalg.eigh(None)]).  Called in
    the world a completed [setup_matrices] left behind, and as long as
    the library itself does not fail, both runners return a duration. *)
Theorem runners_need_setup loops w :
  0 < loops ->
  (forall (g : rng) t,
      gX (module_init (scalar := scalar) g t) = None
      /\ gC (module_init (scalar := scalar) g t) = None)
  /\ (gX w = None -> fst (benchmark_matmul loops w) = Err AttributeError)
  /\ (gC w = None -> fst (benchmark_eigendecomposition loops w) = Err LinAlgError)
  /\ (forall w0,
        setup_matrices w0 = (Ok tt, w) ->
        quiet w loops ->
        exists d d',
          fst (benchmark_matmul loops w) = Ok d
          /\ fst (benchmark_eigendecomposition loops w) = Ok d').
Proof.
  intros Hpos. destruct loops as [|n]; [lia|].
  split; [intros g t; split; reflexivity|].
  split; [intros HX; now rewrite benchmark_matmul_None|].
  split; [intros HC; now rewrite benchmark_eigendecomposition_None|].
  intros w0 Hsetup Hq. unfold setup_matrices in Hsetup.
  apply setup_matrices_with_done in Hsetup.
  assert (HX : gX w = Some (drawn n_rows n_cols (rng_state w0)))
    by (rewrite Hsetup; reflexivity).
  assert (HC : gC w = Some (matmul (transpose (drawn n_rows n_cols (rng_state w0)))
                                   (drawn n_rows n_cols (rng_state w0))))
    by (rewrite Hsetup; reflexivity).
  exists (total_cost (calls w) (S n)), (total_cost (calls w) (S n)).
  rewrite (benchmark_matmul_ok HX Hq).
  rewrite (benchmark_eigendecomposition_ok HC eq_refl Hq).
  split; reflexivity.
Qed.

(** *** The straight line of [main] *)

Lemma bind_print {B} line (k : unit -> M B) w :
  bind (print line) k w = k tt (log (EvPrint line) w).
Proof. reflexivity. Qed.

Lemma bind_pyperf_Runner {B} (k : unit -> M B) w :
  bind pyperf_Runner k w = k tt (log EvRunner w).
Proof. reflexivity. Qed.

Lemma bind_load_X {B} (k : option (matrix scalar) -> M B) w :
  bind load_X k w = k (gX w) w.
Proof. reflexivity. Qed.

Lemma bind_load_C {B} (k : option (matrix scalar) -> M B) w :
  bind load_C k w = k (gC w) w.
Proof. reflexivity. Qed.

Lemma bind_ret {A B} (a : A) (k : A -> M B) w : bind (ret a) k w = k a w.
Proof. reflexivity. Qed.

Lemma logs_timed_matmul n : always (logs_only timed_matmul) (benchmark_matmul n).
Proof.
  apply always_benchmark_matmul.
  - apply logs_only_refl.
  - apply logs_only_trans.
  - intros w. exists []. cbn. now rewrite app_nil_r.
  - intros w d ev Hev. apply logs_only_log; [|reflexivity].
    unfold timed_matmul. rewrite Hev. apply orb_true_r.
  - intros w t. now apply logs_only_log.
Qed.

Lemma logs_timed_eigh n :
  always (logs_only timed_eigh) (benchmark_eigendecomposition n).
Proof.
  apply always_benchmark_eigendecomposition.
  - apply logs_only_refl.
  - apply logs_only_trans.
  - intros w. exists []. cbn. now rewrite app_nil_r.
  - intros w d ev Hev. apply logs_only_log; [|reflexivity].
    unfold timed_eigh. rewrite Hev. apply orb_true_r.
  - intros w t. now apply logs_only_log.
Qed.

Lemma data_kept_matmul n : always same_data (benchmark_matmul n).
Proof.
  apply always_benchmark_matmul;
    first [ exact same_data_refl | exact same_data_trans
          | intros; now repeat split ].
Qed.

Lemma data_kept_eigh n : always same_data (benchmark_eigendecomposition n).
Proof.
  apply always_benchmark_eigendecomposition;
    first [ exact same_data_refl | exact same_data_trans
          | intros; now repeat split ].
Qed.

(** One benchmark under the harness: the time function is called some
    number of times, nothing but timed events are logged meanwhile, the
    globals stay, and a report follows unless a call raised. *)
Lemma bench_time_func_cases name (f : nat -> M Z) p w :
  (forall n, always (logs_only p) (f n)) ->
  (forall n, always same_data (f n)) ->
  exists t,
    forallb p t = true
    /\ ((exists s w',
            bench_time_func name f w = (Ok tt, w')
            /\ trace w' = trace w ++ t ++ [EvReport name s]
            /\ same_data w w')
        \/ (exists e w',
               bench_time_func name f w = (Err e, w')
               /\ trace w' = trace w ++ t)).
Proof.
  intros Hlog Hdata. unfold bench_time_func.
  pose proof (always_run_plan (logs_only_refl p) (logs_only_trans (p := p)) f Hlog
                              (plan name) [] w) as (t & Ht & Hp).
  pose proof (always_run_plan same_data_refl same_data_trans f Hdata
                              (plan name) [] w) as Hd.
  exists t. split; [exact Hp|].
  destruct (run_plan (plan name) f [] w) as [[s|e] w1] eqn:Hrun; cbn [snd] in *.
  - left. exists s, (log (EvReport name s) w1).
    rewrite (bind_ok _ _ _ Hrun). repeat split; try apply Hd.
    cbn [trace log]. now rewrite Ht, <- app_assoc.
  - right. exists e, w1. rewrite (bind_err _ _ _ Hrun). now split.
Qed.

(** With no failing library call, timing functions that return on the
    data at hand make the harness return. *)
Lemma run_plan_returns (f : nat -> M Z) gx gc :
  (forall n, always same_data (f n)) ->
  (forall n w, gX w = gx -> gC w = gc -> exists d, fst (f n w) = Ok d) ->
  forall steps samples w,
    gX w = gx -> gC w = gc ->
    exists s, fst (run_plan steps f samples w) = Ok s.
Proof.
  intros Hdata Hret. induction steps as [|choose steps IH]; intros samples w HX HC;
    cbn [run_plan].
  - now exists samples.
  - destruct (Hret (choose samples) w HX HC) as (d & Hd).
    destruct (Hdata (choose samples) w) as (HX' & HC' & _).
    destruct (f (choose samples) w) as [r w1] eqn:Hf. cbn [fst snd] in *. subst r.
    rewrite (bind_ok _ _ _ Hf). apply IH; congruence.
Qed.

Lemma bench_time_func_returns name (f : nat -> M Z) gx gc w :
  (forall n, always same_data (f n)) ->
  (forall n w, gX w = gx -> gC w = gc -> exists d, fst (f n w) = Ok d) ->
  gX w = gx -> gC w = gc ->
  fst (bench_time_func name f w) = Ok tt.
Proof.
  intros Hdata Hret HX HC. unfold bench_time_func.
  assert (Hs : exists s, fst (run_plan (plan name) f [] w) = Ok s)
    by (eapply run_plan_returns; eauto).
  destruct Hs as (s & Hs).
  destruct (run_plan (plan name) f [] w) as [r w1] eqn:Hrun. cbn [fst] in Hs. subst r.
  now rewrite (bind_ok _ _ _ Hrun).
Qed.

Lemma setup_matrices_with_failed r c w e w' :
  setup_matrices_with r c w = (Err e, w') ->
  ~ (forall i, fault i = None)
  /\ (trace w' = trace w \/ trace w' = trace w ++ [EvRandn r c]).
Proof.
  rewrite setup_matrices_with_cases.
  destruct (fault (calls w)) as [e0|] eqn:H0.
  - intros [= <- <-]. split; [intros H; now rewrite H in H0 | now left].
  - destruct (fault (S (calls w))) as [e1|] eqn:H1; [|discriminate].
    intros [= <- <-]. split; [intros H; now rewrite H in H1 | now right].
Qed.

Lemma quiet_everywhere w n : (forall i, fault i = None) -> quiet w n.
Proof. intros H i _. apply H. Qed.

Lemma benchmark_matmul_returns x gc :
  (forall i, fault i = None) ->
  forall n w, gX w = Some x -> gC w = gc ->
              exists d, fst (benchmark_matmul n w) = Ok d.
Proof.
  intros Hnf n w HX _.
  rewrite (benchmark_matmul_ok HX (quiet_everywhere w n Hnf)). now eexists.
Qed.

Lemma benchmark_eigendecomposition_returns gx c :
  nrows c = ncols c ->
  (forall i, fault i = None) ->
  forall n w, gX w = gx -> gC w = Some c ->
              exists d, fst (benchmark_eigendecomposition n w) = Ok d.
Proof.
  intros Hsq Hnf n w _ HC.
  rewrite (benchmark_eigendecomposition_ok HC Hsq (quiet_everywhere w n Hnf)).
  now eexists.
Qed.

Ltac prefix_tac :=
  unfold prefix_of, linear_run; eexists;
  rewrite <- ?app_assoc; cbn [app]; reflexivity.

Lemma timed_not_randn (p : event -> bool) l :
  forallb p l = true ->
  (forall e, p e = true -> is_randn e = false) ->
  filter is_randn l = [].
Proof.
  intros Hl Hp. induction l as [|e l IH]; [reflexivity|].
  cbn in Hl. apply andb_true_iff in Hl as (He & Hl).
  cbn. rewrite (Hp e He). now apply IH.
Qed.

(** Every run of [main], seen as an outcome and a log. *)
Lemma main_outcome w :
  exists tA tB sA sB done r wf,
    main w = (r, wf)
    /\ forallb timed_matmul tA = true
    /\ forallb timed_eigh tB = true
    /\ trace wf = trace w ++ done
    /\ prefix_of done (linear_run tA tB sA sB)
    /\ (r = Ok tt -> done = linear_run tA tB sA sB)
    /\ ((forall i, fault i = None) -> r = Ok tt).
Proof.
  unfold main, setup_matrices. rewrite !bind_print.
  match goal with
  | |- context [bind (setup_matrices_with ?r ?c) ?k ?w4] =>
      set (w4' := w4);
      assert (Ht4 : trace w4' = trace w ++ banner)
        by (subst w4'; cbn [trace log]; unfold banner;
            rewrite <- !app_assoc; reflexivity);
      destruct (bind_cases (setup_matrices_with r c) k w4')
        as [([] & w5 & Hs & ->) | (e & w5 & Hs & ->)]
  end.
  2: {
    apply setup_matrices_with_failed in Hs. destruct Hs as (Hnf & Ht).
    exists [], [], [], [].
    destruct Ht as [Ht | Ht]; rewrite Ht4 in Ht.
    - exists banner, (Err e), w5.
      refine (conj eq_refl (conj eq_refl (conj eq_refl (conj Ht (conj _ (conj _ _)))))).
      + prefix_tac.
      + discriminate.
      + intros H. now destruct Hnf.
    - exists (banner ++ [EvRandn n_rows n_cols]), (Err e), w5.
      rewrite <- app_assoc in Ht.
      refine (conj eq_refl (conj eq_refl (conj eq_refl (conj Ht (conj _ (conj _ _)))))).
      + prefix_tac.
      + discriminate.
      + intros H. now destruct Hnf. }
  apply setup_matrices_with_done in Hs. subst w5. clearbody w4'.
  cbv beta.
  rewrite bind_pyperf_Runner, !bind_print, bind_load_X.
  cbn [gX log after_setup getattr_shape]. rewrite bind_ret, !bind_print.
  change (shape (drawn n_rows n_cols (rng_state w4'))) with (n_rows, n_cols).
  set (x := drawn n_rows n_cols (rng_state w4')).
  match goal with
  | |- context [bind (bench_time_func "matmul" ?f) ?k ?w0] =>
      set (wA := w0);
      assert (HtA : trace wA
                    = trace w ++ banner
                        ++ [EvRandn n_rows n_cols; EvMatmul n_cols n_rows n_cols]
                        ++ [EvRunner] ++ header_matmul (n_rows, n_cols))
        by (subst wA; cbn [trace log after_setup]; rewrite Ht4;
            unfold header_matmul; rewrite <- !app_assoc; reflexivity);
      assert (HXA : gX wA = Some x) by reflexivity;
      assert (HCA : gC wA = Some (matmul (transpose x) x)) by reflexivity;
      clearbody wA;
      destruct (bench_time_func_cases "matmul" f wA logs_timed_matmul data_kept_matmul)
        as (tA & HpA & [(sA & wA' & HbA & HtA' & HdA) | (e & wA' & HbA & HtA')]);
      [rewrite (bind_ok _ _ _ HbA) | rewrite (bind_err _ _ _ HbA)]
  end.
  2: {
    exists tA, [], [], [].
    eexists; exists (Err e), wA'.
    refine (conj eq_refl (conj HpA (conj eq_refl (conj _ (conj _ (conj _ _)))))).
    - rewrite HtA', HtA, <- !app_assoc. reflexivity.
    - prefix_tac.
    - discriminate.
    - intros Hnf.
      assert (Hok : fst (bench_time_func "matmul" benchmark_matmul wA) = Ok tt).
      { eapply bench_time_func_returns;
          [ exact data_kept_matmul
          | intros n w0 HX0 HC0; eapply benchmark_matmul_returns; eassumption
          | exact HXA | reflexivity ]. }
      rewrite HbA in Hok. discriminate. }
  destruct HdA as (HXA' & HCA' & _).
  rewrite !bind_print, bind_load_C. cbn [gC log]. rewrite HCA', HCA.
  cbn [getattr_shape]. rewrite bind_ret, !bind_print.
  change (shape (matmul (transpose x) x)) with (n_cols, n_cols).
  match goal with
  | |- context [bench_time_func "eigendecomposition" ?f ?w0] =>
      set (wB := w0);
      assert (HtB : trace wB
                    = trace wA' ++ header_eigh (n_cols, n_cols))
        by (subst wB; cbn [trace log];
            unfold header_eigh; rewrite <- !app_assoc; reflexivity);
      assert (HCB : gC wB = Some (matmul (transpose x) x))
        by (subst wB; cbn [gC log]; congruence);
      clearbody wB;
      destruct (bench_time_func_cases "eigendecomposition" f wB
                                      logs_timed_eigh data_kept_eigh)
        as (tB & HpB & [(sB & wB' & HbB & HtB' & HdB) | (e & wB' & HbB & HtB')]);
      rewrite HbB
  end.
  - exists tA, tB, sA, sB.
    eexists; exists (Ok tt), wB'.
    refine (conj eq_refl (conj HpA (conj HpB (conj _ (conj _ (conj _ _)))))).
    + rewrite HtB', HtB, HtA', HtA, <- !app_assoc. reflexivity.
    + exists []. rewrite app_nil_r. unfold linear_run.
      rewrite <- ?app_assoc. reflexivity.
    + intros _. unfold linear_run. rewrite <- ?app_assoc. reflexivity.
    + reflexivity.
  - exists tA, tB, sA, [].
    eexists; exists (Err e), wB'.
    refine (conj eq_refl (conj HpA (conj HpB (conj _ (conj _ (conj _ _)))))).
    + rewrite HtB', HtB, HtA', HtA, <- !app_assoc. reflexivity.
    + prefix_tac.
    + discriminate.
    + intros Hnf.
      assert (Hok : fst (bench_time_func "eigendecomposition"
                                         benchmark_eigendecomposition wB) = Ok tt).
      { eapply bench_time_func_returns;
          [ exact data_kept_eigh
          | intros n w0 HX0 HC0;
            eapply (@benchmark_eigendecomposition_returns (gX wB) (matmul (transpose x) x));
            [reflexivity | exact Hnf | exact HX0 | exact HC0]
          | reflexivity | exact HCB ]. }
      rewrite HbB in Hok. discriminate.
Qed.

(** C4.  Every run of [main] is an initial segment of one fixed line:
    the banner, the set-up (its one [randn] and one product), the
    harness's runner, the first header, the timed events of benchmark A
    and its report, the second header, the timed events of benchmark B
    and its report.  Only clock reads and [X.T @ X] kernels are logged
    under benchmark A, only clock reads and [eigh] kernels under
    benchmark B.  A run that returns has logged the whole line, a run
    fails only if a library call does, and a run stops where it fails;
    a run that returns ends the process with status zero.  In particular
    the set-up is logged once, and any clock read comes after the whole
    set-up. *)
Theorem main_is_linear w :
  exists tA tB sA sB,
    forallb timed_matmul tA = true
    /\ forallb timed_eigh tB = true
    /\ exists done,
        trace (snd (main w)) = trace w ++ done
        /\ prefix_of done (linear_run tA tB sA sB)
        /\ (fst (main w) = Ok tt -> done = linear_run tA tB sA sB)
        /\ ((forall i, fault i = None) -> fst (main w) = Ok tt)
        /\ (fst (main w) = Ok tt -> fst (script w) = 0%Z)
        /\ filter is_randn (linear_run tA tB sA sB) = [EvRandn n_rows n_cols]
        /\ (forall pre t post,
              done = pre ++ EvPerfCounter t :: post ->
              exists mid,
                pre = banner
                        ++ [EvRandn n_rows n_cols; EvMatmul n_cols n_rows n_cols]
                        ++ mid).
Proof.
  destruct (main_outcome w)
    as (tA & tB & sA & sB & done & r & wf & Hmain & HpA & HpB & Ht & Hpre & Hok & Hnf).
  exists tA, tB, sA, sB. split; [exact HpA|]. split; [exact HpB|].
  exists done. unfold script. rewrite Hmain. cbn [fst snd].
  refine (conj Ht (conj Hpre (conj Hok (conj Hnf (conj _ (conj _ _)))))).
  - intros ->. reflexivity.
  - assert (HA : filter is_randn tA = []).
    { apply timed_not_randn with (p := timed_matmul); [exact HpA|].
      intros e He. now destruct e. }
    assert (HB : filter is_randn tB = []).
    { apply timed_not_randn with (p := timed_eigh); [exact HpB|].
      intros e He. now destruct e. }
    unfold linear_run. rewrite !filter_app, HA, HB. reflexivity.
  - intros pre t post Hdone. destruct Hpre as (rest & Hfull).
    rewrite Hdone in Hfull. unfold linear_run, banner in Hfull.
    rewrite <- ?app_assoc in Hfull. cbn [app] in Hfull.
    do 6 (destruct pre as [|? pre]; [discriminate Hfull|];
          cbn [app] in Hfull; injection Hfull as <- Hfull).
    exists pre. reflexivity.
Qed.

Lemma total_cost_pos n :
  forall i,
    (forall k, i <= k < i + S n -> (0 < cost k)%Z) ->
    (0 < total_cost i (S n))%Z.
Proof.
  induction n as [|n IH]; intros i Hpos; cbn [total_cost].
  - specialize (Hpos i). lia.
  - assert (H : (0 < total_cost (S i) (S n))%Z) by (apply IH; intros k Hk; apply Hpos; lia).
    cbn [total_cost] in H. specialize (Hpos i). lia.
Qed.

(** C6, as the code has it.  In the scaled-down scenario, the world a
    set-up with 100 rows and 10 columns leaves behind, Kernel B run with
    [loops = 3] makes exactly three [eigh] calls on the 10 x 10 array [C]
    and returns the elapsed duration, nothing else; the duration is
    positive when those three calls take positive time; what the solver
    computed is dropped, the returned value being the same whatever the
    solver. *)
Theorem eigh_runner_returns_only_the_duration w0 w :
  setup_matrices_with 100 10 w0 = (Ok tt, w) ->
  quiet w 3 ->
  (forall k, calls w <= k < calls w + 3 -> (0 < cost k)%Z) ->
  exists d,
    fst (benchmark_eigendecomposition 3 w) = Ok d
    /\ (0 < d)%Z
    /\ times_exactly (EvEigh 10) 3 w (benchmark_eigendecomposition 3 w)
    /\ forall solver,
        fst (benchmark_eigendecomposition (E := with_solver solver) 3 w) = Ok d.
Proof.
  intros Hsetup Hq Hpos. apply setup_matrices_with_done in Hsetup.
  set (x := drawn 100 10 (rng_state w0)) in *.
  assert (HC : gC w = Some (matmul (transpose x) x)) by (rewrite Hsetup; reflexivity).
  exists (total_cost (calls w) 3).
  rewrite (benchmark_eigendecomposition_ok HC eq_refl Hq).
  split; [reflexivity|]. split; [now apply total_cost_pos|].
  split; [apply (times_exactly_intro (EvEigh 10))|].
  intros solver.
  rewrite (benchmark_eigendecomposition_ok (E := with_solver solver) HC eq_refl Hq).
  reflexivity.
Qed.

End Claims.

(** * The claims on explicit inputs *)

Section Instances.

Import Demo.

Lemma quiet_calm (w : world Z Z) n : quiet (E := calm) w n.
Proof. intros i _. reflexivity. Qed.

Lemma unit_cost_pos k : (0 < cost (Env := calm) k)%Z.
Proof. reflexivity. Qed.

Lemma unit_cost_nonneg k : (0 <= cost (Env := calm) k)%Z.
Proof. discriminate. Qed.

(** The set-up with 3 rows and 2 columns, run on the fresh module. *)
Example setup_matrices_with_3_2 :
  setup_matrices_with (E := calm) 3 2 fresh
  = (Ok tt,
     {| gX := Some x32;
        gC := Some {| nrows := 2; ncols := 2; data := [22; -8; -8; 14]%Z |};
        rng_state := 71666532%Z;
        clock := 1002%Z;
        calls := 2;
        trace := [EvRandn 3 2; EvMatmul 2 3 2] |}).
Proof. vm_compute. reflexivity. Qed.

(** Three timed products on the 3 x 2 array. *)
Example benchmark_matmul_3_tiny :
  benchmark_matmul (E := calm) 3 tiny
  = (Ok 3%Z,
     {| gX := Some x32; gC := Some c22; rng_state := 7%Z;
        clock := 1003%Z;
        calls := 3;
        trace := [EvPerfCounter 1000; EvMatmul 2 3 2; EvMatmul 2 3 2;
                  EvMatmul 2 3 2; EvPerfCounter 1003] |}).
Proof. vm_compute. reflexivity. Qed.

(** Three timed eigendecompositions of which the second fails. *)
Example benchmark_eigendecomposition_3_faulty :
  benchmark_eigendecomposition (E := faulty) 3 tiny
  = (Err LinAlgError,
     {| gX := Some x32; gC := Some c22; rng_state := 7%Z;
        clock := 1001%Z;
        calls := 2;
        trace := [EvPerfCounter 1000; EvEigh 2] |}).
Proof. vm_compute. reflexivity. Qed.

(** Both runners on the module before any set-up. *)
Example runners_before_setup :
  fst (benchmark_matmul (E := calm) 2 fresh) = Err AttributeError
  /\ fst (benchmark_eigendecomposition (E := calm) 2 fresh) = Err LinAlgError
  /\ fst (benchmark_matmul (E := calm) 0 fresh) = Ok 0%Z.
Proof. repeat split. Qed.

(** The harness of the demonstration asks for one repetition, then two. *)
Example bench_time_func_tiny :
  trace (snd (bench_time_func (E := calm) "matmul" (benchmark_matmul (E := calm)) tiny))
  = [EvPerfCounter 1000; EvMatmul 2 3 2; EvPerfCounter 1001;
     EvPerfCounter 1001; EvMatmul 2 3 2; EvMatmul 2 3 2; EvPerfCounter 1003;
     EvReport "matmul" [(1, 1%Z); (2, 2%Z)]].
Proof. vm_compute. reflexivity. Qed.

(** The first header, for a 3 x 2 array. *)
Example header_matmul_3_2 :
  header_matmul (3, 2)
  = [EvPrint dashes;
     EvPrint "BENCHMARK 1: Matrix Multiplication (X'*X)";
     EvPrint "Matrix X shape: (3, 2)";
     EvPrint dashes].
Proof. reflexivity. Qed.

(** C1 on the 3 x 2 array, three repetitions. *)
Lemma runners_time_exactly_loops_kernels_witness :
  quiet (E := calm) tiny 3
  /\ times_exactly (E := calm) (EvMatmul 2 3 2) 3 tiny
                   (benchmark_matmul (E := calm) 3 tiny)
  /\ times_exactly (E := calm) (EvEigh 2) 3 tiny
                   (benchmark_eigendecomposition (E := calm) 3 tiny).
Proof.
  split; [apply quiet_calm|].
  exact (runners_time_exactly_loops_kernels
           (E := calm) (loops := 3) (w := tiny) (x := x32) (c := c22)
           eq_refl eq_refl eq_refl (quiet_calm tiny 3)).
Defined.

(** C2 on the freshly imported module. *)
Lemma setup_matrices_shape_X_witness :
  quiet (E := calm) fresh 2
  /\ fst (setup_matrices (E := calm) fresh) = Ok tt
  /\ exists x,
      gX (snd (setup_matrices (E := calm) fresh)) = Some x
      /\ shape x = (n_rows, n_cols)
      /\ List.length (data x) = n_rows * n_cols.
Proof.
  split; [apply quiet_calm|].
  exact (setup_matrices_shape_X (E := calm) (w := fresh) (quiet_calm fresh 2)).
Defined.

(** C3 on the freshly imported module, with integer entries. *)
Lemma setup_matrices_C_is_symmetric_gram_witness :
  (forall a b : Z, smul a b = smul b a)
  /\ quiet (E := calm) fresh 2
  /\ exists x c,
      gX (snd (setup_matrices (E := calm) fresh)) = Some x
      /\ gC (snd (setup_matrices (E := calm) fresh)) = Some c
      /\ c = matmul (transpose x) x
      /\ shape c = (n_cols, n_cols)
      /\ symmetric c.
Proof.
  split; [exact Z.mul_comm|]. split; [apply quiet_calm|].
  exact (proj2 (proj1 (setup_matrices_C_is_symmetric_gram
                         (E := calm) Z.mul_comm (w := fresh) (quiet_calm fresh 2)))).
Defined.

(** C7 on the 3 x 2 array: the second of three [eigh] calls fails, the
    runner raises that exception and makes no third call. *)
Lemma failures_propagate_uncaught_witness :
  fault (Env := faulty) 1 = Some LinAlgError
  /\ fst (benchmark_eigendecomposition (E := faulty) 3 tiny) = Err LinAlgError
  /\ calls (snd (benchmark_eigendecomposition (E := faulty) 3 tiny)) = 2.
Proof.
  split; [reflexivity|].
  apply (proj1 (proj2 (proj2 (failures_propagate_uncaught (E := faulty)))) 3 tiny 1).
  - cbv. split; repeat constructor.
  - reflexivity.
Defined.

(** C8 on the 3 x 2 array: one repetition against five. *)
Lemma benchmark_matmul_duration_monotone_witness :
  exists d1 d5,
    fst (benchmark_matmul (E := calm) 1 tiny) = Ok d1
    /\ fst (benchmark_matmul (E := calm) 5 tiny) = Ok d5
    /\ (0 <= d1 <= d5)%Z.
Proof.
  refine (benchmark_matmul_duration_monotone
            (E := calm) unit_cost_nonneg (w := tiny) (x := x32) (n := 1) (m := 5)
            eq_refl (quiet_calm tiny 5) _).
  repeat constructor.
Defined.


(** C10 on the freshly imported module, one repetition. *)
Lemma runners_need_setup_witness :
  gX fresh = None
  /\ gC fresh = None
  /\ fst (benchmark_matmul (E := calm) 1 fresh) = Err AttributeError
  /\ fst (benchmark_eigendecomposition (E := calm) 1 fresh) = Err LinAlgError.
Proof.
  pose proof (runners_need_setup (E := calm) (loops := 1) fresh Nat.lt_0_1)
    as (_ & HA & HB & _).
  exact (conj eq_refl (conj eq_refl (conj (HA eq_refl) (HB eq_refl)))).
Defined.

(** C6 as the code has it, on the scaled-down scenario. *)
Lemma eigh_runner_returns_only_the_duration_witness :
  setup_matrices_with (E := calm) 100 10 fresh = (Ok tt, small)
  /\ exists d,
      fst (benchmark_eigendecomposition (E := calm) 3 small) = Ok d
      /\ (0 < d)%Z
      /\ times_exactly (E := calm) (EvEigh 10) 3 small
                       (benchmark_eigendecomposition (E := calm) 3 small)
      /\ forall solver,
          fst (benchmark_eigendecomposition
                 (E := with_solver (E := calm) solver) 3 small) = Ok d.
Proof.
  split; [exact (setup_matrices_with_ok (E := calm) 100 10 (quiet_calm fresh 2))|].
  exact (eigh_runner_returns_only_the_duration
           (E := calm) fresh (w := small)
           (setup_matrices_with_ok (E := calm) 100 10 (quiet_calm fresh 2))
           (quiet_calm small 3)
           (fun k _ => unit_cost_pos k)).
Defined.

(** C6 as the spec words it fails.  In the scaled-down scenario Kernel B
    run with [loops = 3] returns the duration 3 under a solver that
    reports the diagonal and under one that reports the diagonal plus
    one: two different lists of ten eigenvalues, one and the same returned
    value.  So the eigenvalues are not part of what the runner returns. *)
Lemma eigh_runner_result_has_no_eigenvalues :
  gC small = Some small_C
  /\ shape small_C = (10, 10)
  /\ fst (benchmark_eigendecomposition
            (E := with_solver (E := calm) (diag_solver 0)) 3 small) = Ok 3%Z
  /\ fst (benchmark_eigendecomposition
            (E := with_solver (E := calm) (diag_solver 1)) 3 small) = Ok 3%Z
  /\ List.length (fst (diag_solver 0 small_C)) = 10
  /\ fst (diag_solver 0 small_C) <> fst (diag_solver 1 small_C)
  /\ ~ eigenvalues_returned calm 3 small small_C.
Proof.
  assert (H0 : fst (benchmark_eigendecomposition
                      (E := with_solver (E := calm) (diag_solver 0)) 3 small) = Ok 3%Z).
  { rewrite (benchmark_eigendecomposition_ok
               (E := with_solver (E := calm) (diag_solver 0))
               (w := small) (c := small_C) eq_refl eq_refl (quiet_calm small 3)).
    reflexivity. }
  assert (H1 : fst (benchmark_eigendecomposition
                      (E := with_solver (E := calm) (diag_solver 1)) 3 small) = Ok 3%Z).
  { rewrite (benchmark_eigendecomposition_ok
               (E := with_solver (E := calm) (diag_solver 1))
               (w := small) (c := small_C) eq_refl eq_refl (quiet_calm small 3)).
    reflexivity. }
  assert (Hne : fst (diag_solver 0 small_C) <> fst (diag_solver 1 small_C)).
  { intros H. apply (f_equal (hd 0%Z)) in H. vm_compute in H. discriminate H. }
  split; [reflexivity|]. split; [reflexivity|].
  split; [exact H0|]. split; [exact H1|].
  split; [reflexivity|]. split; [exact Hne|].
  intros (decode & Hdec). apply Hne.
  rewrite <- (Hdec (diag_solver 0)), <- (Hdec (diag_solver 1)).
  rewrite H0, H1. reflexivity.
Qed.

End Instances.


(** * Further properties of the script *)

Section Further.

Context {scalar rng : Type} {SC : Scalar scalar} {E : Env scalar rng}.

Implicit Types w : world scalar rng.

(** ** Loops that stop at a failing call *)

Lemma kernel_matmul_err w x e :
  gX w = Some x -> fault (calls w) = Some e ->
  kernel_matmul w = (Err e, enter w).
Proof.
  intros HX Hf. unfold kernel_matmul, bind, load_X. rewrite HX.
  cbn [getattr_T ret]. rewrite HX.
  cbn [np_matmul transpose build ncols nrows].
  rewrite Nat.eqb_refl, (lib_call_err _ _ _ Hf). reflexivity.
Qed.

Lemma kernel_eigh_err w c e :
  gC w = Some c -> nrows c = ncols c -> fault (calls w) = Some e ->
  kernel_eigh w = (Err e, enter w).
Proof.
  intros HC Hsq Hf. unfold kernel_eigh, bind, load_C. rewrite HC.
  cbn [np_linalg_eigh]. rewrite Hsq, Nat.eqb_refl, (lib_call_err _ _ _ Hf).
  reflexivity.
Qed.

(** A loop whose [k] first bodies succeed and whose next one fails. *)
Lemma for_range_stops (body : M unit) ev gx gc :
  (forall w, gX w = gx -> gC w = gc -> fault (calls w) = None ->
             body w = (Ok tt, after_kernels ev 1 w)) ->
  (forall w e, gX w = gx -> gC w = gc -> fault (calls w) = Some e ->
               body w = (Err e, enter w)) ->
  forall n w k e,
    gX w = gx -> gC w = gc -> k < n -> quiet w k ->
    fault (calls w + k) = Some e ->
    for_range n body w = (Err e, enter (after_kernels ev k w)).
Proof.
  intros Hok Herr. induction n as [|n IH]; intros w k e HX HC Hk Hq Hf; [lia|].
  cbn [for_range]. destruct k as [|k].
  - rewrite Nat.add_0_r in Hf.
    rewrite (bind_err _ _ _ (Herr w e HX HC Hf)). now rewrite after_kernels_0.
  - rewrite (bind_ok _ _ _ (Hok w HX HC (quiet_head Hq))).
    rewrite (IH (after_kernels ev 1 w) k e); try assumption.
    + now rewrite after_kernels_S.
    + lia.
    + apply quiet_tail with w; [cbn; lia | exact Hq].
    + cbn [calls after_kernels].
      replace (calls w + 1 + k) with (calls w + S k) by lia. exact Hf.
Qed.

(** Among the next [n] library calls either none fails, or there is a
    first one that does. *)
Lemma quiet_or_first_fault w n :
  quiet w n
  \/ exists k e, k < n /\ quiet w k /\ fault (calls w + k) = Some e.
Proof.
  induction n as [|n [Hq | (k & e & Hk & Hq & Hf)]].
  - left. intros i Hi. lia.
  - destruct (fault (calls w + n)) as [e|] eqn:Hf.
    + right. exists n, e. auto.
    + left. intros i Hi.
      destruct (Nat.eq_dec i (calls w + n)) as [-> | Hne]; [exact Hf|].
      apply Hq. lia.
  - right. exists k, e. auto.
Qed.

Lemma timed_batch_stops (body : M unit) ev n k e w :
  for_range n body (log (EvPerfCounter (clock w)) w)
  = (Err e, enter (after_kernels ev k (log (EvPerfCounter (clock w)) w))) ->
  (t0 <- perf_counter ;; for_range n body ;; t1 <- perf_counter ;; ret (t1 - t0)%Z) w
  = (Err e, enter (after_kernels ev k (log (EvPerfCounter (clock w)) w))).
Proof.
  intros Hloop. unfold bind at 1. unfold perf_counter at 1.
  now rewrite (bind_err _ _ _ Hloop).
Qed.

Lemma benchmark_matmul_stops n k e w x :
  gX w = Some x -> k < n -> quiet w k -> fault (calls w + k) = Some e ->
  benchmark_matmul n w
  = (Err e, enter (after_kernels (EvMatmul (ncols x) (nrows x) (ncols x)) k
                                 (log (EvPerfCounter (clock w)) w))).
Proof.
  intros HX Hk Hq Hf. unfold benchmark_matmul. apply timed_batch_stops.
  apply for_range_stops with (gx := Some x) (gc := gC w); try assumption;
    try reflexivity.
  - intros w' HX' _ Hf'. now apply kernel_matmul_ok.
  - intros w' e' HX' _ Hf'. now apply kernel_matmul_err with x.
Qed.

Lemma benchmark_eigendecomposition_stops n k e w c :
  gC w = Some c -> nrows c = ncols c ->
  k < n -> quiet w k -> fault (calls w + k) = Some e ->
  benchmark_eigendecomposition n w
  = (Err e, enter (after_kernels (EvEigh (nrows c)) k
                                 (log (EvPerfCounter (clock w)) w))).
Proof.
  intros HC Hsq Hk Hq Hf. unfold benchmark_eigendecomposition.
  apply timed_batch_stops.
  apply for_range_stops with (gx := gX w) (gc := Some c); try assumption;
    try reflexivity.
  - intros w' _ HC' Hf'. now apply kernel_eigh_ok.
  - intros w' e' _ HC' Hf'. now apply kernel_eigh_err with c.
Qed.

(** ** The runners at their edges *)

(** X1.  With a repetition count of zero a runner never looks at [X] or
    [C]: in any world, also before the set-up, it reads the clock twice,
    makes no library call and returns the duration zero. *)
Theorem runners_with_zero_loops w :
  benchmark_matmul 0 w
  = (Ok 0%Z, log (EvPerfCounter (clock w)) (log (EvPerfCounter (clock w)) w))
  /\ benchmark_eigendecomposition 0 w
     = (Ok 0%Z, log (EvPerfCounter (clock w)) (log (EvPerfCounter (clock w)) w)).
Proof.
  unfold benchmark_matmul, benchmark_eigendecomposition, bind, perf_counter, ret.
  cbn [for_range ret clock log]. rewrite Z.sub_diag. split; reflexivity.
Qed.

(** X2.  On set-up data a runner returns a duration exactly when none of
    its [loops] library calls fails: [X.T @ X] cannot fail on shapes, and
    [eigh] accepts every square [C]. *)
Theorem runners_return_iff_no_call_fails loops w x c :
  gX w = Some x ->
  gC w = Some c ->
  nrows c = ncols c ->
  ((exists d, fst (benchmark_matmul loops w) = Ok d) <-> quiet w loops)
  /\ ((exists d, fst (benchmark_eigendecomposition loops w) = Ok d)
      <-> quiet w loops).
Proof.
  intros HX HC Hsq. split; split.
  - intros (d & Hd).
    destruct (quiet_or_first_fault w loops) as [Hq | (k & e & Hk & Hq & Hf)];
      [exact Hq|].
    rewrite (benchmark_matmul_stops HX Hk Hq Hf) in Hd. discriminate.
  - intros Hq. rewrite (benchmark_matmul_ok HX Hq). now eexists.
  - intros (d & Hd).
    destruct (quiet_or_first_fault w loops) as [Hq | (k & e & Hk & Hq & Hf)];
      [exact Hq|].
    rewrite (benchmark_eigendecomposition_stops HC Hsq Hk Hq Hf) in Hd.
    discriminate.
  - intros Hq. rewrite (benchmark_eigendecomposition_ok HC Hsq Hq). now eexists.
Qed.

(** X3.  When the first [k] kernel calls of a runner succeed and the next
    one raises, with [k < loops], the runner raises that exception; it has
    logged the first clock read and [k] kernels, it never reads the clock a
    second time and so produces no partial duration, and the failed call
    is its last. *)
Theorem runners_stop_at_first_failure loops k e w x c :
  gX w = Some x ->
  gC w = Some c ->
  nrows c = ncols c ->
  k < loops ->
  quiet w k ->
  fault (calls w + k) = Some e ->
  (fst (benchmark_matmul loops w) = Err e
   /\ trace (snd (benchmark_matmul loops w))
      = trace w ++ EvPerfCounter (clock w)
                :: repeat (EvMatmul (ncols x) (nrows x) (ncols x)) k
   /\ calls (snd (benchmark_matmul loops w)) = S (calls w + k))
  /\ (fst (benchmark_eigendecomposition loops w) = Err e
      /\ trace (snd (benchmark_eigendecomposition loops w))
         = trace w ++ EvPerfCounter (clock w) :: repeat (EvEigh (nrows c)) k
      /\ calls (snd (benchmark_eigendecomposition loops w)) = S (calls w + k)).
Proof.
  intros HX HC Hsq Hk Hq Hf. split.
  - rewrite (benchmark_matmul_stops HX Hk Hq Hf). cbn.
    repeat split. now rewrite <- app_assoc.
  - rewrite (benchmark_eigendecomposition_stops HC Hsq Hk Hq Hf). cbn.
    repeat split. now rewrite <- app_assoc.
Qed.

Lemma benchmark_eigendecomposition_not_square n w c :
  gC w = Some c -> nrows c <> ncols c ->
  benchmark_eigendecomposition (S n) w
  = (Err LinAlgError, log (EvPerfCounter (clock w)) w).
Proof.
  intros HC Hsq. unfold benchmark_eigendecomposition, bind, perf_counter.
  cbn [for_range]. unfold bind, kernel_eigh, bind, load_C.
  cbn [gC log]. rewrite HC. cbn [np_linalg_eigh].
  apply Nat.eqb_neq in Hsq. now rewrite Hsq.
Qed.

(** X4.  When [C] holds an array that is not square, the eigendecomposition
    runner with a positive repetition count raises [LinAlgError] at its
    first iteration, before any library work: no call is counted, no time
    passes, and only the first clock read is logged. *)
Theorem benchmark_eigendecomposition_rejects_non_square loops w c :
  gC w = Some c ->
  nrows c <> ncols c ->
  0 < loops ->
  fst (benchmark_eigendecomposition loops w) = Err LinAlgError
  /\ calls (snd (benchmark_eigendecomposition loops w)) = calls w
  /\ clock (snd (benchmark_eigendecomposition loops w)) = clock w
  /\ trace (snd (benchmark_eigendecomposition loops w))
     = trace w ++ [EvPerfCounter (clock w)].
Proof.
  intros HC Hsq Hpos. destruct loops as [|n]; [lia|].
  rewrite benchmark_eigendecomposition_not_square with (c := c) by assumption.
  repeat split.
Qed.

Lemma total_cost_add n : forall m i,
  total_cost i (n + m) = (total_cost i n + total_cost (i + n) m)%Z.
Proof.
  induction n as [|n IH]; intros m i; cbn [total_cost Nat.add].
  - now rewrite Nat.add_0_r.
  - rewrite IH. replace (S i + n) with (i + S n) by lia. lia.
Qed.

(** X5.  Batches add up: timing [n] products and then, from the world
    that leaves, [m] more, gives two durations whose sum is the duration
    of one batch of [n + m] products from the initial world. *)
Theorem benchmark_matmul_batches_add_up n m w x :
  gX w = Some x ->
  quiet w (n + m) ->
  exists d1 d2,
    fst (benchmark_matmul n w) = Ok d1
    /\ fst (benchmark_matmul m (snd (benchmark_matmul n w))) = Ok d2
    /\ fst (benchmark_matmul (n + m) w) = Ok (d1 + d2)%Z.
Proof.
  intros HX Hq.
  assert (Hqn : quiet w n) by (apply quiet_le with (n + m); [lia | exact Hq]).
  rewrite (benchmark_matmul_ok HX Hq), (benchmark_matmul_ok HX Hqn). cbn [fst snd].
  match goal with
  | |- context [benchmark_matmul m ?w1] =>
      assert (HX1 : gX w1 = Some x) by exact HX;
      assert (Hc1 : calls w1 = calls w + n) by reflexivity;
      assert (Hq1 : quiet w1 m) by (apply (quiet_shift w1 n m Hc1 Hq));
      rewrite (benchmark_matmul_ok HX1 Hq1); rewrite Hc1
  end.
  exists (total_cost (calls w) n), (total_cost (calls w + n) m).
  cbn [fst]. now rewrite total_cost_add.
Qed.

(** ** The set-up at its edges *)

(** X6.  The set-up returns exactly when neither of its two library
    calls fails.  If [randn] fails, the globals and the generator are
    left as they were.  If [randn] succeeds and the product fails, [X]
    already holds the new array and the generator has advanced, while
    [C] still holds what it held before. *)
Theorem setup_matrices_failure_states w :
  (fst (setup_matrices w) = Ok tt <-> quiet w 2)
  /\ (forall e,
        fault (calls w) = Some e ->
        fst (setup_matrices w) = Err e
        /\ same_data w (snd (setup_matrices w)))
  /\ (forall e,
        fault (calls w) = None ->
        fault (S (calls w)) = Some e ->
        fst (setup_matrices w) = Err e
        /\ gX (snd (setup_matrices w)) = Some (drawn n_rows n_cols (rng_state w))
        /\ gC (snd (setup_matrices w)) = gC w
        /\ rng_state (snd (setup_matrices w))
           = snd (draws (n_rows * n_cols) (rng_state w))).
Proof.
  unfold setup_matrices. rewrite setup_matrices_with_cases.
  split; [split|split].
  - destruct (fault (calls w)) as [e|] eqn:H0; [discriminate|].
    destruct (fault (S (calls w))) as [e|] eqn:H1; [discriminate|].
    intros _ i Hi.
    destruct (Nat.eq_dec i (calls w)) as [-> | Hne]; [exact H0|].
    replace i with (S (calls w)) by lia. exact H1.
  - intros Hq. rewrite (Hq (calls w)), (Hq (S (calls w))) by lia. reflexivity.
  - intros e He. rewrite He. split; [reflexivity | now repeat split].
  - intros e H0 H1. rewrite H0, H1. now repeat split.
Qed.




(** ** What [main] leaves behind *)

Lemma data_kept_bench_time_func name (f : nat -> M Z) :
  (forall n, always same_data (f n)) ->
  always same_data (bench_time_func name f).
Proof.
  intros Hf. unfold bench_time_func.
  apply always_bind; [exact same_data_trans | |].
  - apply always_run_plan;
      [exact same_data_refl | exact same_data_trans | exact Hf].
  - intros samples w. now repeat split.
Qed.

Lemma data_kept_getattr_shape (v : option (matrix scalar)) :
  always (rng := rng) same_data (getattr_shape v).
Proof. destruct v; intros w; now repeat split. Qed.

(** Known operations first, then one [bind] at a time. *)
Ltac keep_data :=
  first [ apply data_kept_bench_time_func;
          first [ exact data_kept_matmul | exact data_kept_eigh ]
        | apply data_kept_getattr_shape
        | solve [ let w := fresh "w" in intros w; repeat split; reflexivity ]
        | apply always_bind;
          [ exact same_data_trans | keep_data | intros ?; keep_data ] ].

(** X9.  A run of [main] that returns leaves in [X] the array the set-up
    drew from the generator state [main] started with and in [C] its
    product; the generator has advanced by exactly [n_rows * n_cols]
    draws: nothing after the set-up assigns a global or draws a number. *)
Theorem main_leaves_setup_globals w :
  fst (main w) = Ok tt ->
  gX (snd (main w)) = Some (drawn n_rows n_cols (rng_state w))
  /\ gC (snd (main w))
     = Some (matmul (transpose (drawn n_rows n_cols (rng_state w)))
                    (drawn n_rows n_cols (rng_state w)))
  /\ rng_state (snd (main w)) = snd (draws (n_rows * n_cols) (rng_state w)).
Proof.
  unfold main, setup_matrices. rewrite !bind_print.
  match goal with
  | |- context [bind (setup_matrices_with ?r ?c) ?k ?w4] =>
      set (w4' := w4);
      assert (Hg : rng_state w4' = rng_state w) by reflexivity;
      assert (Hk : forall u, always same_data (k u)) by (intros u; keep_data);
      clearbody w4';
      destruct (bind_cases (setup_matrices_with r c) k w4')
        as [([] & w5 & Hs & ->) | (e & w5 & Hs & ->)]
  end.
  - intros _. apply setup_matrices_with_done in Hs. subst w5.
    destruct (Hk tt (after_setup n_rows n_cols w4')) as (HX & HC & HR).
    rewrite HX, HC, HR. cbn [gX gC rng_state after_setup]. rewrite Hg.
    repeat split.
  - discriminate.
Qed.

Lemma main_returns_when_quiet w :
  (forall i, fault i = None) -> fst (main w) = Ok tt.
Proof.
  intros Hnf.
  destruct (main_outcome w)
    as (tA & tB & sA & sB & done & r & wf & Hmain & _ & _ & _ & _ & _ & Hok).
  rewrite Hmain. cbn [fst]. now apply Hok.
Qed.

End Further.


(** * The further properties on explicit inputs *)

Section FurtherInstances.

Import Demo.

(** X2 on the 3 x 2 array, three repetitions. *)
Lemma runners_return_iff_no_call_fails_witness :
  ((exists d, fst (benchmark_matmul (E := calm) 3 tiny) = Ok d)
   <-> quiet (E := calm) tiny 3)
  /\ ((exists d, fst (benchmark_eigendecomposition (E := calm) 3 tiny) = Ok d)
      <-> quiet (E := calm) tiny 3).
Proof.
  apply (runners_return_iff_no_call_fails (E := calm)) with (x := x32) (c := c22);
    reflexivity.
Defined.

(** X3 on the 3 x 2 array: the second of three kernel calls fails. *)
Lemma runners_stop_at_first_failure_witness :
  fault (Env := faulty) 1 = Some LinAlgError
  /\ (fst (benchmark_matmul (E := faulty) 3 tiny) = Err LinAlgError
      /\ trace (snd (benchmark_matmul (E := faulty) 3 tiny))
         = [EvPerfCounter 1000; EvMatmul 2 3 2]
      /\ calls (snd (benchmark_matmul (E := faulty) 3 tiny)) = 2)
  /\ (fst (benchmark_eigendecomposition (E := faulty) 3 tiny) = Err LinAlgError
      /\ trace (snd (benchmark_eigendecomposition (E := faulty) 3 tiny))
         = [EvPerfCounter 1000; EvEigh 2]
      /\ calls (snd (benchmark_eigendecomposition (E := faulty) 3 tiny)) = 2).
Proof.
  split; [reflexivity|].
  apply (runners_stop_at_first_failure (E := faulty))
    with (loops := 3) (k := 1) (w := tiny) (x := x32) (c := c22);
    try reflexivity.
  - repeat constructor.
  - intros i Hi. cbn in Hi. assert (i = 0) as -> by lia. reflexivity.
Defined.

(** X4 on a world whose [C] is the 3 x 2 array. *)
Lemma benchmark_eigendecomposition_rejects_non_square_witness :
  gC skewed = Some x32
  /\ nrows x32 <> ncols x32
  /\ fst (benchmark_eigendecomposition (E := calm) 1 skewed) = Err LinAlgError
  /\ calls (snd (benchmark_eigendecomposition (E := calm) 1 skewed)) = calls skewed
  /\ clock (snd (benchmark_eigendecomposition (E := calm) 1 skewed)) = clock skewed
  /\ trace (snd (benchmark_eigendecomposition (E := calm) 1 skewed))
     = trace skewed ++ [EvPerfCounter (clock skewed)].
Proof.
  assert (Hne : nrows x32 <> ncols x32) by discriminate.
  split; [reflexivity|]. split; [exact Hne|].
  apply (benchmark_eigendecomposition_rejects_non_square (E := calm))
    with (c := x32); [reflexivity | exact Hne | exact Nat.lt_0_1].
Defined.

(** X5 on the 3 x 2 array: one product, then two, against three. *)
Lemma benchmark_matmul_batches_add_up_witness :
  exists d1 d2,
    fst (benchmark_matmul (E := calm) 1 tiny) = Ok d1
    /\ fst (benchmark_matmul (E := calm) 2
                             (snd (benchmark_matmul (E := calm) 1 tiny))) = Ok d2
    /\ fst (benchmark_matmul (E := calm) (1 + 2) tiny) = Ok (d1 + d2)%Z.
Proof.
  apply (benchmark_matmul_batches_add_up (E := calm)) with (x := x32);
    [reflexivity | apply quiet_calm].
Defined.

(** X6 on the fresh module, when the product cannot allocate. *)
Lemma setup_matrices_failure_states_witness :
  fst (setup_matrices (E := out_of_memory) fresh) = Err MemoryError
  /\ gX (snd (setup_matrices (E := out_of_memory) fresh))
     = Some (drawn (E := out_of_memory) n_rows n_cols (rng_state fresh))
  /\ gC (snd (setup_matrices (E := out_of_memory) fresh)) = gC fresh
  /\ rng_state (snd (setup_matrices (E := out_of_memory) fresh))
     = snd (draws (E := out_of_memory) (n_rows * n_cols) (rng_state fresh)).
Proof.
  apply (proj2 (proj2 (setup_matrices_failure_states (E := out_of_memory) fresh)));
    reflexivity.
Defined.



(** X9 on the fresh module, in the calm environment. *)
Lemma main_leaves_setup_globals_witness :
  fst (main (E := calm) fresh) = Ok tt
  /\ gX (snd (main (E := calm) fresh))
     = Some (drawn (E := calm) n_rows n_cols (rng_state fresh))
  /\ gC (snd (main (E := calm) fresh))
     = Some (matmul (transpose (drawn (E := calm) n_rows n_cols (rng_state fresh)))
                    (drawn (E := calm) n_rows n_cols (rng_state fresh)))
  /\ rng_state (snd (main (E := calm) fresh))
     = snd (draws (E := calm) (n_rows * n_cols) (rng_state fresh)).
Proof.
  assert (H : fst (main (E := calm) fresh) = Ok tt)
    by (apply main_returns_when_quiet; intros i; reflexivity).
  split; [exact H|].
  apply (main_leaves_setup_globals (E := calm)). exact H.
Defined.

End FurtherInstances.
